(** * Battery telemetry logger and health analytics

    A shallow embedding of [logger.py] (class [PowerStationLogger]) and
    [analytics.py] (class [BMSAnalytics]).

    Numbers.  The binary64 values of Python and NumPy are modelled twice.

    In the first model a finite value is a real number and arithmetic on
    finite values is exact (no rounding error, no overflow).  The special
    values that the analytics can produce from finite data, the infinities
    of a division by zero and NaN, are kept explicit in the type [float],
    because [int()] raises on them and comparisons with NaN are false.  Zero
    has no sign: a zero divisor stands for [+0.0], the value the logger
    writes for an unreadable node.  This model carries the properties that
    do not turn on how a result is rounded: which calls raise, the sampling
    policy, signs, bounds and orderings, the least-squares reading of the
    slope.

    In the second model (module [B64]) a value is a binary64 number of
    IEEE 754, and every operation is rounded to nearest, ties to even, as
    NumPy computes it.  It carries the health score and the recommendations
    of [analyze], which turn on the last bit of a quotient:
    [40 / 60 * 100 * 0.6 + 20] is [59.99999999999999] in binary64, and its
    integer part is 59.

    Errors.  A Python exception is a value [Raise e] of the type [result];
    statements are sequenced with [bind], so the first raising statement
    decides the outcome, as in the source. *)

From Stdlib Require Import Reals Lra Lia List Sorted String Ascii ZArith Bool Zfloor.
From Stdlib Require Floats.
Import ListNotations.

Open Scope R_scope.

(* ================================================================== *)
(** ** Python values: exceptions, floats, [round], [int], [min] *)

Module Py.

Inductive exn : Type :=
| FileNotFoundError
| PermissionError
| ValueError
| OverflowError
| RuntimeError.

Inductive result (A : Type) : Type :=
| Ok (a : A)
| Raise (e : exn).

Arguments Ok {A} a.
Arguments Raise {A} e.

Definition bind {A B : Type} (c : result A) (k : A -> result B) : result B :=
  match c with
  | Ok a => k a
  | Raise e => Raise e
  end.

Definition fmap {A B : Type} (f : A -> B) (c : result A) : result B :=
  bind c (fun a => Ok (f a)).

(** A binary64 value: a finite real, an infinity ([Inf true] is negative
    infinity) or NaN. *)
Inductive float : Type :=
| Fin (r : R)
| Inf (neg : bool)
| NaN.

Definition Rltb (a b : R) : bool := if Rlt_dec a b then true else false.
Definition Reqb (a b : R) : bool := if Req_dec_T a b then true else false.

Definition fneg (x : float) : float :=
  match x with
  | Fin r => Fin (- r)
  | Inf s => Inf (negb s)
  | NaN => NaN
  end.

Definition fadd (x y : float) : float :=
  match x, y with
  | NaN, _ | _, NaN => NaN
  | Fin a, Fin b => Fin (a + b)
  | Inf s, Inf t => if Bool.eqb s t then Inf s else NaN
  | Inf s, Fin _ => Inf s
  | Fin _, Inf t => Inf t
  end.

Definition fsub (x y : float) : float := fadd x (fneg y).

Definition fmul (x y : float) : float :=
  match x, y with
  | NaN, _ | _, NaN => NaN
  | Fin a, Fin b => Fin (a * b)
  | Inf s, Inf t => Inf (xorb s t)
  | Inf s, Fin b => if Reqb b 0 then NaN else Inf (xorb s (Rltb b 0))
  | Fin a, Inf t => if Reqb a 0 then NaN else Inf (xorb (Rltb a 0) t)
  end.

(** NumPy division: a zero divisor gives an infinity, or NaN for [0/0],
    and a warning rather than an exception. *)
Definition fdiv (x y : float) : float :=
  match x, y with
  | NaN, _ | _, NaN => NaN
  | Fin a, Fin b =>
      if Reqb b 0
      then (if Reqb a 0 then NaN else Inf (Rltb a 0))
      else Fin (a / b)
  | Fin _, Inf _ => Fin 0
  | Inf s, Fin b => Inf (xorb s (Rltb b 0))
  | Inf _, Inf _ => NaN
  end.

(** [x < y]; every comparison with NaN is false. *)
Definition flt (x y : float) : bool :=
  match x, y with
  | NaN, _ | _, NaN => false
  | Fin a, Fin b => Rltb a b
  | Inf s, Inf t => s && negb t
  | Inf s, Fin _ => s
  | Fin _, Inf t => negb t
  end.

(** [min(a, b)] of the builtin: [b] when [b < a], else [a]. *)
Definition min (a b : float) : float := if flt b a then b else a.

(** Round half to even, to the nearest integer. *)
Definition rint (x : R) : Z :=
  let f := Zfloor x in
  if Rlt_dec (x - IZR f) (1 / 2) then f
  else if Rlt_dec (1 / 2) (x - IZR f) then (f + 1)%Z
  else if Z.even f then f else (f + 1)%Z.

(** [round(x, ndigits)] on a finite value. *)
Definition round_to (ndigits : nat) (x : R) : R :=
  IZR (rint (x * 10 ^ ndigits)) / 10 ^ ndigits.

(** [round(x, ndigits)]: NaN and the infinities round to themselves. *)
Definition round (x : float) (ndigits : nat) : float :=
  match x with
  | Fin r => Fin (round_to ndigits r)
  | _ => x
  end.

(** Truncation toward zero. *)
Definition trunc (x : R) : Z :=
  if Rle_dec 0 x then Zfloor x else Zceil x.

(** [int(x)]: [ValueError] on NaN, [OverflowError] on an infinity. *)
Definition int (x : float) : result Z :=
  match x with
  | Fin r => Ok (trunc r)
  | Inf _ => Raise OverflowError
  | NaN => Raise ValueError
  end.

End Py.

Import Py.

Declare Scope py_scope.
Delimit Scope py_scope with py.
Notation "x <- c ;; k" := (bind c (fun x => k))
  (at level 61, c at next level, right associativity) : py_scope.
Infix "+!" := fadd (at level 50, left associativity) : py_scope.
Infix "-!" := fsub (at level 50, left associativity) : py_scope.
Infix "*!" := fmul (at level 40, left associativity) : py_scope.
Infix "/!" := fdiv (at level 40, left associativity) : py_scope.
Infix "<!" := flt (at level 70, no associativity) : py_scope.
Coercion Fin : R >-> float.


Open Scope py_scope.
Open Scope string_scope.
Open Scope list_scope.

(* ================================================================== *)
(** ** The telemetry sample: one row of the log *)

(** The columns of [battery_master_log.csv], in the order of
    [PowerStationLogger.fields].  Stored readings are finite numbers;
    [pct] and [cycles] are written with [int()]. *)
Record sample : Type := {
  timestamp : string;
  pct : Z;
  status : string;
  voltage_v : R;
  current_a : R;
  power_w : R;
  temp_c : R;
  energy_wh : R;
  energy_full_wh : R;
  energy_design_wh : R;
  cycles : Z;
  charge_rate_w : R
}.

(* ================================================================== *)
(** ** The library calls of [analytics.py]

    pandas and scikit-learn are not part of the repository; the calls the
    analyzer makes are given their documented meaning, over exact reals. *)

Module Pandas.

Definition Rsum (l : list R) : R := fold_right Rplus 0 l.

Definition mean (l : list R) : R := Rsum l / INR (List.length l).

(** Sample standard deviation, [ddof = 1]. *)
Definition std (w : list R) : R :=
  sqrt (Rsum (map (fun v => (v - mean w) ^ 2) w) / (INR (List.length w) - 1)).

(** [Series.rolling(window).std()]: position [i] holds the deviation of the
    [window] values ending at [i], and is absent (NaN) while fewer than
    [window] values are available ([min_periods] defaults to [window]). *)
Definition rolling_std (window : nat) (xs : list R) : list (option R) :=
  map (fun i =>
         if (S i <? window)%nat then None
         else Some (std (firstn window (skipn (S i - window) xs))))
      (seq 0 (List.length xs)).

(** The values that are present. *)
Fixpoint dropna (s : list (option R)) : list R :=
  match s with
  | [] => []
  | Some v :: s' => v :: dropna s'
  | None :: s' => dropna s'
  end.

(** [Series.mean()] skips absent values; with none present it is NaN. *)
Definition nanmean (s : list (option R)) : float :=
  match dropna s with
  | [] => NaN
  | v :: vs => Fin (mean (v :: vs))
  end.

(** [Series.max()]. *)
Definition max (xs : list R) : float :=
  match xs with
  | [] => NaN
  | x :: xs' => Fin (fold_left Rmax xs' x)
  end.

(** [DataFrame.tail(n)]: the last [n] rows, all of them when there are
    fewer. *)
Definition tail {A : Type} (n : nat) (df : list A) : list A :=
  skipn (List.length df - n) df.

(** [np.arange(n)]. *)
Definition arange (n : nat) : list R := map INR (seq 0 n).

(** [LinearRegression().fit(x, y)] with one feature: the data are centred
    and the least-squares coefficient of the centred data is returned in
    [coef_[0]]; [intercept_] is what makes the line pass through the
    means. *)
Definition Sxy (x y : list R) : R :=
  Rsum (map (fun p => (fst p - mean x) * (snd p - mean y)) (combine x y)).

Definition Sxx (x : list R) : R :=
  Rsum (map (fun a => (a - mean x) ^ 2) x).

Definition coef_ (x y : list R) : R := Sxy x y / Sxx x.

Definition intercept_ (x y : list R) : R := mean y - coef_ x y * mean x.

End Pandas.

(* ================================================================== *)
(** ** [analytics.py]: class [BMSAnalytics] *)

Module BMSAnalytics.

Import Pandas.

(** The dictionary returned by [analyze], key by key. *)
Record report : Type := {
  SoH : float;
  Health_Score : Z;
  Discharge_Rate : float;
  Stability_Index : float;
  Cycle_Count : Z;
  Recommendations : list string
}.

Definition _empty_metrics : report :=
  {| SoH := 0; Health_Score := 0; Discharge_Rate := 0;
     Stability_Index := 0; Cycle_Count := 0;
     Recommendations := ["Waiting for data..."] |}.

Definition rec_thermal : string :=
  "Critical: Thermal throttling advised. High temp reduces lifespan.".
Definition rec_eol : string :=
  "Battery reaching End-of-Life (SoH < 80%). Consider replacement.".
Definition rec_discharge : string :=
  "Rapid Discharge: Heavy background processes detected.".

(** [df.iloc[-1]] of a frame whose first row is [first] and whose other
    rows are [rest]. *)
Definition iloc_last (first : sample) (rest : list sample) : sample :=
  last rest first.

(** The local variables of [analyze], in the order of the source. *)

Definition soh_of (latest : sample) : float :=
  (Fin (energy_full_wh latest) /! Fin (energy_design_wh latest)) *! 100.

Definition v_stability_of (df : list sample) : float :=
  let rolling_v := rolling_std 5 (map voltage_v df) in
  100 -! (nanmean rolling_v *! 10).

Definition cycle_penalty_of (latest : sample) : float :=
  Py.min 20 ((Fin (IZR (cycles latest)) /! 1000) *! 20).

Definition temp_penalty_of (df : list sample) : float :=
  if Fin 45 <! Pandas.max (map temp_c df) then 20 else 0.

Definition health_score_of (df : list sample) (latest : sample) : float :=
  (soh_of latest *! 0.6) +! (20 -! cycle_penalty_of latest)
                         +! (20 -! temp_penalty_of df).

Definition slope_of (df : list sample) : R :=
  let recent := tail 10 df in
  let y := map (fun s => IZR (pct s)) recent in
  let x := arange (List.length y) in
  coef_ x y.

(** [recs = []] followed by the three conditional [append]s. *)
Definition recs_of (latest : sample) (soh : float) (slope : R) : list string :=
  let recs := [] in
  let recs := if Rltb 40 (temp_c latest) then recs ++ [rec_thermal] else recs in
  let recs := if soh <! 80 then recs ++ [rec_eol] else recs in
  let recs := if Rltb slope (-0.5) then recs ++ [rec_discharge] else recs in
  recs.

(** [analyze].  [df] is the frame read in [__init__] (empty when the log
    cannot be read).  The dictionary is built key by key, so [int] of the
    health score is the only point that can raise. *)
Definition analyze (df : list sample) : result report :=
  match df with
  | [] | [_] => Ok _empty_metrics
  | first :: rest =>
      let latest := iloc_last first rest in
      let soh := soh_of latest in
      let v_stability := v_stability_of df in
      let health_score := health_score_of df latest in
      let slope := slope_of df in
      let recs := recs_of latest soh slope in
      score <- Py.int health_score ;;
      Ok {| SoH := Py.round soh 2;
            Health_Score := score;
            Discharge_Rate := Py.round slope 3;
            Stability_Index := Py.round v_stability 2;
            Cycle_Count := cycles latest;
            Recommendations := recs |}
  end.

End BMSAnalytics.

(* ================================================================== *)
(** ** Text and the host's file tree *)

Module Host.

(** What a path of the host holds when it is read. *)
Inductive file : Type :=
| NoFile                  (* no such path *)
| Unreadable              (* the path exists, reading it is refused *)
| Text (content : string).

(** The part of the host the logger looks at: the files, and the results of
    the two [glob.glob] calls. *)
Record host : Type := {
  node : string -> file;
  power_supply_BAT : list string;
  thermal_zones : list string
}.

(** [Path / name]. *)
Definition joinpath (dir name : string) : string :=
  (dir ++ "/" ++ name)%string.

(** [Path.exists()]. *)
Definition exists_ (h : host) (path : string) : bool :=
  match node h path with
  | NoFile => false
  | _ => true
  end.

(** [Path.read_text()], also [open(path).read()]. *)
Definition read_text (h : host) (path : string) : result string :=
  match node h path with
  | NoFile => Raise FileNotFoundError
  | Unreadable => Raise PermissionError
  | Text s => Ok s
  end.

(** [str.strip()] on ASCII text. *)
Definition is_space (c : ascii) : bool :=
  let n := nat_of_ascii c in
  ((9 <=? n) && (n <=? 13) || (28 <=? n) && (n <=? 32))%nat.

Fixpoint lstrip (s : string) : string :=
  match s with
  | EmptyString => EmptyString
  | String c s' => if is_space c then lstrip s' else s
  end.

Fixpoint rstrip (s : string) : string :=
  match s with
  | EmptyString => EmptyString
  | String c s' =>
      match rstrip s' with
      | EmptyString => if is_space c then EmptyString else String c EmptyString
      | t => String c t
      end
  end.

Definition strip (s : string) : string := rstrip (lstrip s).

(** [str.lower()] on ASCII text. *)
Definition lower_ascii (c : ascii) : ascii :=
  let n := nat_of_ascii c in
  if ((65 <=? n) && (n <=? 90))%nat then ascii_of_nat (n + 32) else c.

Fixpoint lower (s : string) : string :=
  match s with
  | EmptyString => EmptyString
  | String c s' => String (lower_ascii c) (lower s')
  end.

(** [needle in hay]. *)
Fixpoint contains (needle hay : string) : bool :=
  String.prefix needle hay ||
  match hay with
  | EmptyString => false
  | String _ hay' => contains needle hay'
  end.

(** Plain decimal literals, the form in which the kernel writes its
    numeric nodes: an optional sign, digits, at most one point.  It is the
    reading of [float] used in the worked examples. *)
Definition digit_of (c : ascii) : option Z :=
  let n := nat_of_ascii c in
  if ((48 <=? n) && (n <=? 57))%nat then Some (Z.of_nat (n - 48)) else None.

Fixpoint digits (s : string) (acc : Z) (frac : option nat) (seen : bool)
  : option (Z * nat) :=
  match s with
  | EmptyString =>
      if seen then Some (acc, match frac with Some k => k | None => O end)
      else None
  | String c s' =>
      if Ascii.eqb c "." then
        match frac with
        | None => digits s' acc (Some O) seen
        | Some _ => None
        end
      else
        match digit_of c with
        | Some d => digits s' (10 * acc + d)%Z (option_map S frac) true
        | None => None
        end
  end.

Definition decimal_parts (s : string) : option (Z * nat) :=
  match s with
  | String "-" t => option_map (fun p => (- fst p, snd p)%Z) (digits t 0%Z None false)
  | String "+" t => digits t 0%Z None false
  | _ => digits s 0%Z None false
  end.

Definition decimal_literal (s : string) : option R :=
  match decimal_parts s with
  | Some (m, k) => Some (IZR m / 10 ^ k)
  | None => None
  end.

End Host.

(* ================================================================== *)
(** ** [logger.py]: class [PowerStationLogger] *)

Module PowerStationLogger.

Import Host.

(** The attributes of the logger that the capture loop uses. *)
Record logger : Type := {
  bat_path : string;
  thermal_zone : option string;
  last_status : option string
}.

Definition set_last_status (self : logger) (s : string) : logger :=
  {| bat_path := bat_path self;
     thermal_zone := thermal_zone self;
     last_status := Some s |}.

Section Logger.

(** The builtin [float] on text: [None] stands for its [ValueError]. *)
Variable float_of : string -> option R.

Definition py_float (s : string) : result R :=
  match float_of s with
  | Some r => Ok r
  | None => Raise ValueError
  end.

Definition _discover_battery (h : host) : result string :=
  match power_supply_BAT h with
  | [] => Raise RuntimeError
  | p :: _ => Ok p
  end.

Definition thermal_keywords : list string := ["bat"; "pkg"; "acpi"; "intel"].

(** The loop over the thermal zones; a zone whose [type] cannot be read is
    skipped ([except: continue]). *)
Fixpoint scan_zones (h : host) (zones : list string) : option string :=
  match zones with
  | [] => None
  | zone :: zones' =>
      match fmap (fun t => lower (strip t)) (read_text h (joinpath zone "type")) with
      | Ok z_type =>
          if existsb (fun x => contains x z_type) thermal_keywords
          then Some (joinpath zone "temp")
          else scan_zones h zones'
      | Raise _ => scan_zones h zones'
      end
  end.

Definition _discover_thermal (h : host) (bat : string) : option string :=
  if exists_ h (joinpath bat "temp") then Some (joinpath bat "temp")
  else scan_zones h (thermal_zones h).

Definition __init__ (h : host) : result logger :=
  bat <- _discover_battery h ;;
  Ok {| bat_path := bat;
        thermal_zone := _discover_thermal h bat;
        last_status := None |}.

(** [_read_sysfs]: the body of the [try] either returns a value, falls
    through (the node does not exist) or raises; the handler and the final
    [return] both give [0.0]. *)
Definition _read_sysfs (h : host) (self : logger) (name : string) (scale : R) : R :=
  let attempt : result (option R) :=
    let path := joinpath (bat_path self) name in
    if exists_ h path then
      t <- read_text h path ;;
      v <- py_float (strip t) ;;
      Ok (Some (v / scale))
    else Ok None in
  match attempt with
  | Ok (Some v) => v
  | Ok None => 0
  | Raise _ => 0
  end.

Fixpoint _read_val_fallback (h : host) (self : logger) (nodes : list string)
    (scale : R) : R :=
  match nodes with
  | [] => 0
  | name :: nodes' =>
      let val := _read_sysfs h self name scale in
      if Rltb 0 val then val else _read_val_fallback h self nodes' scale
  end.

(** The expression stored under ["charge_rate_w"]. *)
Definition charge_rate (status : string) (volts amps : R) : R :=
  if String.eqb status "Charging" then round_to 2 (volts * amps)
  else round_to 2 (- (volts * amps)).

(** [capture_telemetry]; [now] is [datetime.now().isoformat()]. *)
Definition capture_telemetry (h : host) (self : logger) (now : string)
  : result sample :=
  let volts := _read_sysfs h self "voltage_now" 1000000 in
  let amps := _read_sysfs h self "current_now" 1000000 in
  let power := _read_sysfs h self "power_now" 1000000 in
  let power :=
    if Reqb power 0 && negb (Reqb (volts * amps) 0) then volts * amps
    else power in
  temp_raw <- match thermal_zone self with
              | Some tz =>
                  t <- read_text h tz ;;
                  temp_raw <- py_float (strip t) ;;
                  Ok (if Rltb 1000 temp_raw then temp_raw / 1000
                      else temp_raw / 10)
              | None => Ok 0
              end ;;
  status <- fmap strip (read_text h (joinpath (bat_path self) "status")) ;;
  Ok {| timestamp := now;
        pct := trunc (_read_sysfs h self "capacity" 1);
        status := status;
        voltage_v := round_to 3 volts;
        current_a := round_to 3 amps;
        power_w := round_to 2 power;
        temp_c := round_to 1 temp_raw;
        energy_wh := _read_sysfs h self "energy_now" 1000000;
        energy_full_wh :=
          _read_val_fallback h self ["energy_full"; "charge_full"] 1000000;
        energy_design_wh :=
          _read_val_fallback h self
            ["energy_full_design"; "charge_full_design"] 1000000;
        cycles := trunc (_read_sysfs h self "cycle_count" 1);
        charge_rate_w := charge_rate status volts amps |}.

(** [data['status'] != self.last_status]: a string differs from [None]. *)
Definition status_differs (s : string) (last : option string) : bool :=
  match last with
  | None => true
  | Some l => negb (String.eqb s l)
  end.

(** The adaptive sleep logic of [run]: the sleep time, and the logger with
    [last_status] assigned in the high-resolution branch. *)
Definition adaptive_sleep (self : logger) (data : sample) : Z * logger :=
  if status_differs (status data) (last_status self)
     || Rltb 15 (Rabs (power_w data))
  then (2%Z, set_last_status self (status data))
  else (10%Z, self).

(** [run] over the successive states of the host, one per iteration (the
    list ends where the interrupt arrives): the rows written with their
    sleep times, and the exception that left the loop, if any. *)
Fixpoint run (self : logger) (hosts : list (string * host))
  : list (sample * Z) * option exn :=
  match hosts with
  | [] => ([], None)
  | (now, h) :: hosts' =>
      match capture_telemetry h self now with
      | Raise e => ([], Some e)
      | Ok data =>
          let (sleep_time, self') := adaptive_sleep self data in
          let (rows, out) := run self' hosts' in
          ((data, sleep_time) :: rows, out)
      end
  end.

End Logger.

(** The sampling policy as a function of the two statuses and the power,
    the reading of [adaptive_sleep] that the specification calls
    [nextInterval]. *)
Definition nextInterval (previousStatus : option string) (currentStatus : string)
    (currentPowerW : R) : Z :=
  if status_differs currentStatus previousStatus
     || Rltb 15 (Rabs currentPowerW)
  then 2%Z else 10%Z.

End PowerStationLogger.

(* ================================================================== *)
(** ** [logger.py]: the log file of [PowerStationLogger] *)

Module LogFile.

Import Host.

(** [self.fields], the column names of the log. *)
Definition fields : list string :=
  [ "timestamp"; "pct"; "status"; "voltage_v"; "current_a";
    "power_w"; "temp_c"; "energy_wh"; "energy_full_wh";
    "energy_design_wh"; "cycles"; "charge_rate_w" ].

(** [csv.DictWriter.writeheader]: the names joined by commas, the line
    ended by carriage return and line feed. *)
Definition crlf : string := String "013"%char (String "010"%char EmptyString).

Definition writeheader (fieldnames : list string) : string :=
  (String.concat "," fieldnames ++ crlf)%string.

(** The host after [content] has been written to a new or truncated file
    at [path]. *)
Definition written (h : host) (path content : string) : host :=
  {| node := fun p => if String.eqb p path then Text content else node h p;
     power_supply_BAT := power_supply_BAT h;
     thermal_zones := thermal_zones h |}.

(** [open(path, "w")] followed by a write: refused where the path cannot be
    written. *)
Definition open_w (h : host) (writable : string -> bool)
    (path content : string) : result host :=
  if writable path then Ok (written h path content)
  else Raise PermissionError.

(** [_init_csv]: the header is written only when no file exists at
    [filename]. *)
Definition _init_csv (h : host) (writable : string -> bool)
    (filename : string) : result host :=
  if negb (exists_ h filename)
  then open_w h writable filename (writeheader fields)
  else Ok h.

End LogFile.

(* ================================================================== *)
(** ** [analytics.py] on binary64 values

    The health score and the recommendations of [analyze], embedded a
    second time on binary64 values (the primitive floats: IEEE 754
    binary64, every operation rounded to nearest, ties to even).  The
    coefficient that scikit-learn fits is a parameter of the analysis, which
    only compares it with [-0.5]. *)

Module B64.

Import PrimFloat SpecFloat FloatOps.
Local Open Scope float_scope.
Set Warnings "-inexact-float".

(** The columns of a row that the health score and the rules read. *)
Record row : Type := {
  pct : Z;
  temp_c : float;
  energy_full_wh : float;
  energy_design_wh : float;
  cycles : Z
}.

(** The conversion of an integer to binary64: the nearest value. *)
Definition of_int (z : Z) : float :=
  SF2Prim (binary_normalize prec emax z 0 false).

(** [int(x)]: the integer part of a finite value, whose mantissa [m] and
    exponent [e] give the magnitude [m * 2 ^ e]; [ValueError] on NaN,
    [OverflowError] on an infinity. *)
Definition int (x : float) : result Z :=
  match Prim2SF x with
  | S754_nan => Raise ValueError
  | S754_infinity _ => Raise OverflowError
  | S754_zero _ => Ok 0%Z
  | S754_finite s m e =>
      let magnitude :=
        match e with
        | Zneg k => Z.shiftr (Zpos m) (Zpos k)
        | _ => Z.shiftl (Zpos m) e
        end in
      Ok (if s then - magnitude else magnitude)%Z
  end.

(** [min(a, b)] of the builtin: [b] when [b < a], else [a]. *)
Definition min (a b : float) : float := if b <? a then b else a.

(** [Series.max()]: the greatest value that is not NaN, and NaN when there
    is none. *)
Definition max (xs : list float) : float :=
  fold_left (fun acc x =>
               if is_nan x then acc
               else if is_nan acc then x
               else if acc <? x then x else acc)
            xs nan.

(** The dictionary returned by [analyze], for the two keys embedded here. *)
Record report : Type := {
  Health_Score : Z;
  Recommendations : list string
}.

Definition _empty_metrics : report :=
  {| Health_Score := 0; Recommendations := ["Waiting for data..."] |}.

(** The local variables of [analyze], in the order of the source. *)

Definition soh_of (latest : row) : float :=
  (energy_full_wh latest / energy_design_wh latest) * 100.

Definition cycle_penalty_of (latest : row) : float :=
  min 20 ((of_int (cycles latest) / 1000) * 20).

Definition temp_penalty_of (df : list row) : float :=
  if 45 <? max (map temp_c df) then 20 else 0.

Definition health_score_of (df : list row) (latest : row) : float :=
  (soh_of latest * 0.6) + (20 - cycle_penalty_of latest)
                        + (20 - temp_penalty_of df).

(** [recs = []] followed by the three conditional [append]s. *)
Definition recs_of (latest : row) (soh slope : float) : list string :=
  let recs := [] in
  let recs := if 40 <? temp_c latest
              then recs ++ [BMSAnalytics.rec_thermal] else recs in
  let recs := if soh <? 80 then recs ++ [BMSAnalytics.rec_eol] else recs in
  let recs := if slope <? -0.5
              then recs ++ [BMSAnalytics.rec_discharge] else recs in
  recs.

Section Analyze.

(** [LinearRegression().fit(x, y).coef_[0]] for [x = np.arange(len(y))],
    as a function of [y]. *)
Variable coef_ : list Z -> float.

Definition slope_of (df : list row) : float :=
  let recent := Pandas.tail 10 df in
  let y := map pct recent in
  coef_ y.

(** [analyze]: [int] of the health score is the only point that can
    raise. *)
Definition analyze (df : list row) : result report :=
  match df with
  | [] | [_] => Ok _empty_metrics
  | first :: rest =>
      let latest := last rest first in
      let soh := soh_of latest in
      let health_score := health_score_of df latest in
      let slope := slope_of df in
      let recs := recs_of latest soh slope in
      score <- int health_score ;;
      Ok {| Health_Score := score; Recommendations := recs |}
  end.

End Analyze.

End B64.

Import Pandas BMSAnalytics Host PowerStationLogger.

(* ================================================================== *)
(** ** Notions used to state the properties *)

(** Whether some row of the frame is hotter than 45. *)
Definition any_hot (df : list sample) : bool :=
  existsb (fun s => Rltb 45 (temp_c s)) df.

(** The health score before [int], on a latest row whose design energy is
    not zero. *)
Definition health_value (df : list sample) (latest : sample) : R :=
  energy_full_wh latest / energy_design_wh latest * 100 * 0.6
  + (20 - Rmin 20 (IZR (cycles latest) / 1000 * 20))
  + (20 - (if any_hot df then 20 else 0)).

(** The report that [analyze] builds when it returns. *)
Definition report_of (df : list sample) (latest : sample) : report :=
  {| SoH := Py.round (soh_of latest) 2;
     Health_Score := trunc (health_value df latest);
     Discharge_Rate := Fin (round_to 3 (slope_of df));
     Stability_Index := Py.round (v_stability_of df) 2;
     Cycle_Count := cycles latest;
     Recommendations := recs_of latest (soh_of latest) (slope_of df) |}.

(** The runs of [n] consecutive values of a sequence, oldest first; a
    sequence shorter than [n] has none. *)
Fixpoint windows (n : nat) (xs : list R) : list (list R) :=
  match xs with
  | [] => []
  | _ :: xs' =>
      if (n <=? List.length xs)%nat then firstn n xs :: windows n xs' else []
  end.

(** The stability index in the words of the specification: 100 minus 10
    times the mean of the deviations of the complete windows of 5. *)
Definition stability_of_windows (voltages : list R) : R :=
  100 - mean (map std (windows 5 voltages)) * 10.

(** The squared error of the line [a + b * x] on the points [(x, y)]. *)
Definition sse (x y : list R) (a b : R) : R :=
  Rsum (map (fun p => (snd p - (a + b * fst p)) ^ 2) (combine x y)).

(** A strictly decreasing sequence of percentages. *)
Fixpoint strictly_decreasing (l : list Z) : Prop :=
  match l with
  | a :: (b :: _) as t => (b < a)%Z /\ strictly_decreasing t
  | _ => True
  end.

(** Sums over a list of points. *)
Definition SX (ps : list (R * R)) : R := Rsum (map fst ps).
Definition SY (ps : list (R * R)) : R := Rsum (map snd ps).
Definition SXX (ps : list (R * R)) : R := Rsum (map (fun p => fst p * fst p) ps).
Definition SXY (ps : list (R * R)) : R := Rsum (map (fun p => fst p * snd p) ps).
Definition SYY (ps : list (R * R)) : R := Rsum (map (fun p => snd p * snd p) ps).
Definition NP (ps : list (R * R)) : R := INR (List.length ps).

(** [n] times the centred cross sum, and [n] times the centred square
    sum. *)
Definition cross (ps : list (R * R)) : R := NP ps * SXY ps - SX ps * SY ps.
Definition spread (ps : list (R * R)) : R := NP ps * SXX ps - SX ps * SX ps.

(** [q] lies to the right of [p] and at least [g] per unit lower. *)
Definition steeper (g : R) (p q : R * R) : Prop :=
  fst p <= fst q /\ snd q + g * fst q <= snd p + g * fst p.

(** The points on which [slope_of] fits its line. *)
Definition trend_points (df : list sample) : list (R * R) :=
  let y := map (fun s => IZR (pct s)) (tail 10 df) in
  combine (arange (List.length y)) y.

(** The sleep times of a run of rows, each decided from the status of the
    row before it. *)
Fixpoint sleeps_of (previous : option string) (rows : list sample) : list Z :=
  match rows with
  | [] => []
  | data :: rows' =>
      nextInterval previous (status data) (power_w data)
      :: sleeps_of (Some (status data)) rows'
  end.

(** A zone whose type label can be read and holds one of the keywords. *)
Definition zone_matches (h : host) (zone : string) : bool :=
  match read_text h (joinpath zone "type") with
  | Ok t => existsb (fun x => contains x (lower (strip t))) thermal_keywords
  | Raise _ => false
  end.

(** The temperature that [capture_telemetry] derives from the raw reading
    of the thermal source. *)
Definition normalised_temp (raw : R) : R :=
  if Rltb 1000 raw then raw / 1000 else raw / 10.

(** The names of the nodes tried for the design energy. *)
Definition design_nodes : list string :=
  ["energy_full_design"; "charge_full_design"].

(** A strictly increasing sequence of percentages. *)
Fixpoint strictly_increasing (l : list Z) : Prop :=
  match l with
  | a :: (b :: _) as t => (a < b)%Z /\ strictly_increasing t
  | _ => True
  end.

(** [q] lies to the right of [p] and at least [g] per unit higher. *)
Definition rising (g : R) (p q : R * R) : Prop :=
  fst p <= fst q /\ snd p - g * fst p <= snd q - g * fst q.

(** The place of a binary64 value in the order of the comparison [<]: the
    sign, then the exponent, then the mantissa; none for NaN. *)
Section Binary64Order.

Import SpecFloat.

Definition float_key (f : spec_float) : option (Z * Z * Z) :=
  match f with
  | S754_nan => None
  | S754_zero _ => Some (0, 0, 0)%Z
  | S754_infinity s => Some (if s then (-2) else 2, 0, 0)%Z
  | S754_finite s m e =>
      Some (if s then (-1, - e, Zneg m) else (1, e, Zpos m))%Z
  end.

Definition lex (a b : Z * Z * Z) : comparison :=
  match (fst (fst a) ?= fst (fst b))%Z with
  | Eq => match (snd (fst a) ?= snd (fst b))%Z with
          | Eq => (snd a ?= snd b)%Z
          | c => c
          end
  | c => c
  end.

End Binary64Order.

(* ================================================================== *)
(** ** Rows, frames and hosts of the worked examples *)

(** A row of a battery at rest: SoH 90, 30 degrees, 100 cycles. *)
Definition idle_sample : sample :=
  {| timestamp := "2024-01-01T00:00:00"; pct := 80; status := "Discharging";
     voltage_v := 12; current_a := 1; power_w := 12; temp_c := 30;
     energy_wh := 40; energy_full_wh := 45; energy_design_wh := 50;
     cycles := 100; charge_rate_w := -12 |}.

(** A host with a battery directory and no readable node. *)
Definition bare_host : host :=
  {| node := fun _ => NoFile;
     power_supply_BAT := ["/sys/class/power_supply/BAT0"];
     thermal_zones := [] |}.

(** The logger that [__init__] builds on [bare_host]. *)
Definition bare_logger : logger :=
  {| bat_path := "/sys/class/power_supply/BAT0";
     thermal_zone := None;
     last_status := None |}.

(** A row as the logger writes it when the capacity nodes of the battery
    cannot be read: full and design energy default to 0.0. *)
Definition no_capacity_sample : sample :=
  {| timestamp := "2024-01-01T00:00:10"; pct := 79; status := "Discharging";
     voltage_v := 12; current_a := 1; power_w := 12; temp_c := 30;
     energy_wh := 40; energy_full_wh := 0; energy_design_wh := 0;
     cycles := 100; charge_rate_w := -12 |}.

(** A row in which only the design energy could not be read. *)
Definition no_design_sample : sample :=
  {| timestamp := "2024-01-01T00:00:10"; pct := 79; status := "Discharging";
     voltage_v := 12; current_a := 1; power_w := 12; temp_c := 30;
     energy_wh := 40; energy_full_wh := 45; energy_design_wh := 0;
     cycles := 100; charge_rate_w := -12 |}.

(** Hosts for the worked examples: a file table over a battery [BAT0] and
    one thermal zone. *)
Definition lookup (files : list (string * file)) (path : string) : file :=
  match find (fun kv => String.eqb (fst kv) path) files with
  | Some kv => snd kv
  | None => NoFile
  end.

(** The battery directory, the thermal zone and the newline that ends the
    text of a node. *)
Definition BAT0 : string := "/sys/class/power_supply/BAT0".
Definition zone0 : string := "/sys/class/thermal/thermal_zone0".
Definition nl : string := String "010"%char EmptyString.

(** The host with the given files, one battery and one thermal zone. *)
Definition host_of (files : list (string * file)) : host :=
  {| node := lookup files;
     power_supply_BAT := [BAT0];
     thermal_zones := [zone0] |}.

(** A discharging battery: 12 V, 1.5 A, 80 percent, 36.5 degrees. *)
Definition healthy_files : list (string * file) :=
  [ (joinpath BAT0 "voltage_now", Text ("12000000" ++ nl));
    (joinpath BAT0 "current_now", Text ("1500000" ++ nl));
    (joinpath BAT0 "capacity", Text ("80" ++ nl));
    (joinpath BAT0 "status", Text ("Discharging" ++ nl));
    (joinpath BAT0 "energy_now", Text ("40000000" ++ nl));
    (joinpath BAT0 "energy_full", Text ("45000000" ++ nl));
    (joinpath BAT0 "energy_full_design", Text ("50000000" ++ nl));
    (joinpath BAT0 "cycle_count", Text ("100" ++ nl));
    (joinpath zone0 "type", Text ("acpitz" ++ nl));
    (joinpath zone0 "temp", Text ("36500" ++ nl)) ]%string.

Definition host_healthy : host := host_of healthy_files.

(** The same host without its status node. *)
Definition host_status_missing : host :=
  host_of ((joinpath BAT0 "status", NoFile) :: healthy_files).

(** The same host with a thermal node that refuses to be read. *)
Definition host_thermal_unreadable : host :=
  host_of ((joinpath zone0 "temp", Unreadable) :: healthy_files).

(** The same host with a thermal node that holds no number. *)
Definition host_thermal_garbage : host :=
  host_of ((joinpath zone0 "temp", Text "N/A") :: healthy_files).

(** The logger that [__init__] builds on [host_healthy]. *)
Definition zone_logger : logger :=
  {| bat_path := BAT0;
     thermal_zone := Some (joinpath zone0 "temp");
     last_status := None |}.




(** A row of a worn battery, SoH 75, with the given time, percentage and
    temperature. *)
Definition worn_sample (t : string) (p : Z) (temp : R) : sample :=
  {| timestamp := t; pct := p; status := "Discharging";
     voltage_v := 12; current_a := 1; power_w := 12; temp_c := temp;
     energy_wh := 30; energy_full_wh := 75; energy_design_wh := 100;
     cycles := 100; charge_rate_w := -12 |}.

(** A host whose battery exposes its own temperature node, beside the
    thermal zone of [host_healthy]. *)
Definition host_battery_temp : host :=
  host_of ((joinpath BAT0 "temp", Text ("305" ++ nl)%string) :: healthy_files).

(** A host with two zones: the first has an unreadable type label, the
    second is labelled [x86_PKG_temp]. *)
Definition host_two_zones : host :=
  {| node :=
       lookup
         [ (joinpath "/sys/class/thermal/thermal_zone0" "type", Unreadable);
           (joinpath "/sys/class/thermal/thermal_zone1" "type",
            Text ("x86_PKG_temp" ++ nl)%string) ];
     power_supply_BAT := [BAT0];
     thermal_zones :=
       ["/sys/class/thermal/thermal_zone0"; "/sys/class/thermal/thermal_zone1"] |}.

(** A host without any battery directory. *)
Definition host_no_battery : host :=
  {| node := lookup healthy_files;
     power_supply_BAT := [];
     thermal_zones := [zone0] |}.

(** The battery of [host_healthy] without its design-energy node. *)
Definition host_no_design : host :=
  host_of ((joinpath BAT0 "energy_full_design", NoFile) :: healthy_files).

(** Five rows at rest. *)
Definition steady_frame : list sample :=
  [idle_sample; idle_sample; idle_sample; idle_sample] ++ [idle_sample].

(** A battery being charged: 50, 52 and 55 percent. *)
Definition charging_frame : list sample :=
  [worn_sample "t0" 50 30; worn_sample "t1" 52 30] ++ [worn_sample "t2" 55 30].

(** Ten rows falling from 59 to 50 percent. *)
Definition last_ten : list sample :=
  map (fun p => worn_sample "t" p 30) [59; 58; 57; 56; 55; 54; 53; 52; 51; 50]%Z.

(** A host on which no log exists yet, and the name of the log. *)
Definition log_name : string := "battery_master_log.csv".

(** A host that holds a log with one row already. *)
Definition host_with_log : host :=
  host_of ((log_name,
            Text ("timestamp,pct" ++ nl ++ "2024-01-01T00:00:00,80" ++ nl)%string)
           :: healthy_files).

(** Rows of binary64 values. *)
Section Binary64Rows.

Import PrimFloat.
Local Open Scope float_scope.
Set Warnings "-inexact-float".

(** Full energy 40 of a design energy of 60 after 1000 cycles, at the given
    temperature. *)
Definition aged_row (temp : float) : B64.row :=
  {| B64.pct := 80; B64.temp_c := temp; B64.energy_full_wh := 40;
     B64.energy_design_wh := 60; B64.cycles := 1000 |}.

(** A row of a worn battery, SoH 75, with the given percentage and
    temperature. *)
Definition worn_row (p : Z) (temp : float) : B64.row :=
  {| B64.pct := p; B64.temp_c := temp; B64.energy_full_wh := 75;
     B64.energy_design_wh := 100; B64.cycles := 100 |}.

(** Four rows of a worn battery, the latest at 41 degrees. *)
Definition worn_rows : list B64.row :=
  [worn_row 50 35; worn_row 49 36; worn_row 49 38] ++ [worn_row 48 41].

(** A row on which no rule fires: SoH 90, at 30 degrees. *)
Definition sound_row : B64.row :=
  {| B64.pct := 80; B64.temp_c := 30; B64.energy_full_wh := 45;
     B64.energy_design_wh := 50; B64.cycles := 100 |}.

Definition sound_rows : list B64.row := [sound_row] ++ [sound_row].

(** Full energy 36.16 of a design energy of 45.2: the quotient times 100 is
    [79.99999999999999] in binary64. *)
Definition rounded_row : B64.row :=
  {| B64.pct := 80; B64.temp_c := 40; B64.energy_full_wh := 36.16;
     B64.energy_design_wh := 45.2; B64.cycles := 100 |}.

End Binary64Rows.

(* ================================================================== *)
(** * Properties *)

(** ** Comparisons, rounding and truncation *)

Lemma Rltb_true (a b : R) : a < b -> Rltb a b = true.
Proof. intro H. unfold Rltb. destruct (Rlt_dec a b); [reflexivity | contradiction]. Qed.

Lemma Rltb_false (a b : R) : ~ a < b -> Rltb a b = false.
Proof. intro H. unfold Rltb. destruct (Rlt_dec a b); [contradiction | reflexivity]. Qed.

Lemma Rltb_spec (a b : R) : Rltb a b = true <-> a < b.
Proof.
  unfold Rltb. destruct (Rlt_dec a b); split; intro; auto; discriminate.
Qed.

Lemma Reqb_true (a b : R) : a = b -> Reqb a b = true.
Proof. intro H. unfold Reqb. destruct (Req_dec_T a b); [reflexivity | contradiction]. Qed.

Lemma Reqb_false (a b : R) : a <> b -> Reqb a b = false.
Proof. intro H. unfold Reqb. destruct (Req_dec_T a b); [contradiction | reflexivity]. Qed.

Ltac Rdecide :=
  repeat first
    [ rewrite Rltb_true by lra
    | rewrite Rltb_false by lra
    | rewrite Reqb_true by lra
    | rewrite Reqb_false by lra ].

Lemma rint_near (x : R) (z : Z) : Rabs (x - IZR z) < 1 / 2 -> rint x = z.
Proof.
  intro H. apply Rabs_def2 in H. destruct H as [Hhi Hlo].
  unfold rint.
  destruct (Rle_dec (IZR z) x) as [Hle | Hgt].
  - rewrite (Zfloor_eq z x) by lra.
    destruct (Rlt_dec (x - IZR z) (1 / 2)); [reflexivity | lra].
  - assert (Hf : Zfloor x = (z - 1)%Z)
      by (apply Zfloor_eq; rewrite minus_IZR; lra).
    rewrite Hf, minus_IZR.
    destruct (Rlt_dec (x - (IZR z - 1)) (1 / 2)); [lra |].
    destruct (Rlt_dec (1 / 2) (x - (IZR z - 1))); [lia | lra].
Qed.

Lemma rint_IZR (z : Z) : rint (IZR z) = z.
Proof. apply rint_near. rewrite Rminus_diag, Rabs_R0. lra. Qed.

Lemma rint_floor_le (x : R) : (Zfloor x <= rint x)%Z.
Proof.
  unfold rint.
  destruct (Rlt_dec _ _); [lia |].
  destruct (Rlt_dec _ _); [lia |].
  destruct (Z.even _); lia.
Qed.

Lemma rint_le_ceil (x : R) (z : Z) : x <= IZR z -> (rint x <= z)%Z.
Proof.
  intro H. pose proof (Zfloor_bound x) as [Hlo Hhi].
  destruct (Req_dec_T x (IZR z)) as [-> | Hne]; [rewrite rint_IZR; lia |].
  assert (Zfloor x < z)%Z by (apply lt_IZR; lra).
  unfold rint.
  destruct (Rlt_dec _ _); [lia |].
  destruct (Rlt_dec _ _); [lia |].
  destruct (Z.even _); lia.
Qed.

Lemma pow10_pos (n : nat) : 0 < 10 ^ n.
Proof. apply pow_lt. lra. Qed.

Lemma round_to_nonneg (n : nat) (x : R) : 0 <= x -> 0 <= round_to n x.
Proof.
  intro H. unfold round_to. pose proof (pow10_pos n) as Hp.
  apply Rmult_le_pos; [| left; apply Rinv_0_lt_compat; exact Hp].
  apply IZR_le. etransitivity; [| apply rint_floor_le].
  apply Zfloor_lub. simpl. nra.
Qed.


Lemma round_to_IZR (n : nat) (z : Z) : round_to n (IZR z) = IZR z.
Proof.
  unfold round_to. pose proof (pow10_pos n) as Hp.
  replace (IZR z * 10 ^ n) with (IZR (z * 10 ^ Z.of_nat n)).
  - rewrite rint_IZR, mult_IZR.
    replace (IZR (10 ^ Z.of_nat n)) with (10 ^ n); [field; lra |].
    rewrite <- pow_IZR. reflexivity.
  - rewrite mult_IZR. f_equal. rewrite <- pow_IZR. reflexivity.
Qed.

Lemma round_to_eq (n : nat) (x : R) (z : Z) : x = IZR z -> round_to n x = IZR z.
Proof. intros ->. apply round_to_IZR. Qed.

Lemma round_to_exact (n : nat) (x : R) (z : Z) :
  x * 10 ^ n = IZR z -> round_to n x = IZR z / 10 ^ n.
Proof. intro H. unfold round_to. now rewrite H, rint_IZR. Qed.

Lemma trunc_IZR (z : Z) : trunc (IZR z) = z.
Proof.
  unfold trunc. destruct (Rle_dec 0 (IZR z)).
  - apply ZfloorZ.
  - unfold Zceil. rewrite <- opp_IZR, ZfloorZ. lia.
Qed.

Lemma trunc_eq (x : R) (z : Z) : x = IZR z -> trunc x = z.
Proof. intros ->. apply trunc_IZR. Qed.

(* ================================================================== *)
(** ** The degenerate report *)

(** C2.  On a frame of fewer than two rows, the empty frame included,
    [analyze] returns the fixed report of [_empty_metrics]: SoH, health
    score, discharge rate, stability index and cycle count are all 0 and the
    recommendations are the single string "Waiting for data...". *)
Theorem analyze_waiting_for_data (df : list sample) :
  (List.length df < 2)%nat ->
  analyze df =
    Ok {| SoH := Fin 0; Health_Score := 0; Discharge_Rate := Fin 0;
          Stability_Index := Fin 0; Cycle_Count := 0;
          Recommendations := ["Waiting for data..."] |}.
Proof.
  intro Hlen.
  destruct df as [| first [| second rest]]; simpl in Hlen.
  - reflexivity.
  - reflexivity.
  - lia.
Qed.

(** The empty frame and a frame of one row. *)
Lemma analyze_waiting_for_data_witness :
  analyze [] = Ok _empty_metrics /\ analyze [idle_sample] = Ok _empty_metrics.
Proof.
  split.
  - apply (analyze_waiting_for_data []). simpl. lia.
  - apply (analyze_waiting_for_data [idle_sample]). simpl. lia.
Defined.

(* ================================================================== *)
(** ** The adaptive sampling policy *)

Lemma status_differs_spec (s : string) (last : option string) :
  status_differs s last = true <-> last <> Some s.
Proof.
  destruct last as [l |]; simpl.
  - rewrite negb_true_iff. split.
    + intros H E. injection E as ->. rewrite String.eqb_refl in H. discriminate.
    + intro H. apply String.eqb_neq. intros ->. now apply H.
  - split; [discriminate | reflexivity].
Qed.

Lemma high_res_condition (last : option string) (s : string) (p : R) :
  status_differs s last || Rltb 15 (Rabs p) = true
  <-> last <> Some s \/ 15 < Rabs p.
Proof.
  rewrite orb_true_iff, status_differs_spec, Rltb_spec. reflexivity.
Qed.

Lemma adaptive_sleep_nextInterval (self : logger) (data : sample) :
  fst (adaptive_sleep self data)
  = nextInterval (last_status self) (status data) (power_w data).
Proof.
  unfold adaptive_sleep, nextInterval.
  destruct (status_differs _ _ || Rltb _ _); reflexivity.
Qed.

(** C4.  The sleep time chosen by [run] is 2 exactly when the status of the
    sample differs from the remembered one or the absolute power is above
    15, and 10 in every other case; the remembered status is afterwards the
    status of this sample, so at the next iteration it is the previous
    status.  The three documented cases evaluate to 2, 10 and 2. *)
Theorem adaptive_interval_policy :
  (forall (self : logger) (data : sample),
      let changed := last_status self <> Some (status data) in
      let loaded := 15 < Rabs (power_w data) in
      (fst (adaptive_sleep self data) = 2%Z <-> changed \/ loaded) /\
      (fst (adaptive_sleep self data) = 10%Z <-> ~ (changed \/ loaded)) /\
      fst (adaptive_sleep self data)
      = nextInterval (last_status self) (status data) (power_w data) /\
      last_status (snd (adaptive_sleep self data)) = Some (status data)) /\
  nextInterval (Some "Discharging") "Charging" 5 = 2%Z /\
  nextInterval (Some "Discharging") "Discharging" 3 = 10%Z /\
  nextInterval (Some "Discharging") "Discharging" 20 = 2%Z.
Proof.
  split; [| split; [| split]].
  - intros self data changed loaded. subst changed loaded.
    pose proof (high_res_condition (last_status self) (status data)
                  (power_w data)) as Hc.
    split; [| split; [| split]].
    + unfold adaptive_sleep.
      destruct (status_differs _ _ || Rltb _ _); simpl.
      * split; [intros _; now apply Hc | reflexivity].
      * split; [discriminate |]. intro H. apply Hc in H. discriminate.
    + unfold adaptive_sleep.
      destruct (status_differs _ _ || Rltb _ _); simpl.
      * split; [discriminate |]. intro H. exfalso. apply H. now apply Hc.
      * split; [| reflexivity]. intros _ H. apply Hc in H. discriminate.
    + apply adaptive_sleep_nextInterval.
    + unfold adaptive_sleep.
      destruct (status_differs (status data) (last_status self)) eqn:Hd; simpl.
      * reflexivity.
      * destruct (Rltb 15 (Rabs (power_w data))); simpl; [reflexivity |].
        destruct (last_status self) as [l |]; simpl in Hd; [| discriminate].
        apply negb_false_iff, String.eqb_eq in Hd. now subst.
  - unfold nextInterval. simpl. reflexivity.
  - unfold nextInterval. simpl.
    rewrite Rltb_false; [reflexivity |].
    rewrite Rabs_pos_eq; lra.
  - unfold nextInterval. simpl.
    rewrite Rltb_true; [reflexivity |].
    rewrite Rabs_pos_eq; lra.
Qed.

(** C10.  A logger built by [__init__] remembers no status ([None]), which
    differs from every status string; so the first iteration of [run]
    sleeps 2, whatever sample was captured. *)
Theorem first_iteration_high_res (h : host) (self : logger) :
  __init__ h = Ok self ->
  last_status self = None /\
  (forall data : sample, fst (adaptive_sleep self data) = 2%Z) /\
  (forall float_of now h1 hosts data,
      capture_telemetry float_of h1 self now = Ok data ->
      exists rows out,
        run float_of self ((now, h1) :: hosts) = ((data, 2%Z) :: rows, out)).
Proof.
  unfold __init__. intro Hinit.
  destruct (_discover_battery h) as [bat | e]; simpl in Hinit; [| discriminate].
  injection Hinit as <-.
  split; [reflexivity |].
  split; [reflexivity |].
  intros float_of now h1 hosts data Hcap.
  simpl. rewrite Hcap. unfold adaptive_sleep. simpl.
  destruct (run float_of _ hosts) as [rows out].
  exists rows, out. reflexivity.
Qed.

(** A host with a battery: the logger is built and its first sleep is 2. *)
Lemma first_iteration_high_res_witness :
  __init__ bare_host = Ok bare_logger /\
  fst (adaptive_sleep bare_logger idle_sample) = 2%Z.
Proof.
  assert (Hinit : __init__ bare_host = Ok bare_logger) by reflexivity.
  split; [exact Hinit |].
  apply (first_iteration_high_res bare_host bare_logger Hinit).
Defined.

(* ================================================================== *)
(** ** The local values of [analyze] *)

Lemma fold_left_Rmax_gt (c : R) (xs : list R) (x : R) :
  c < fold_left Rmax xs x <-> c < x \/ exists y, In y xs /\ c < y.
Proof.
  revert x. induction xs as [| a xs IH]; intro x; simpl.
  - split; [auto | intros [H | [y [[] _]]]; exact H].
  - rewrite IH. split.
    + intros [H | [y [Hy Hc]]].
      * unfold Rmax in H. destruct (Rle_dec x a); [right; exists a | left]; auto.
      * right. exists y. auto.
    + intros [H | [y [[-> | Hy] Hc]]].
      * left. pose proof (Rmax_l x a). lra.
      * left. pose proof (Rmax_r x y). lra.
      * right. exists y. auto.
Qed.

Lemma any_hot_spec (df : list sample) :
  any_hot df = true <-> exists s, In s df /\ 45 < temp_c s.
Proof.
  unfold any_hot. rewrite existsb_exists.
  split; intros [s [Hin H]]; exists s; (split; [exact Hin |]);
    now apply Rltb_spec.
Qed.

Lemma temp_penalty_value (df : list sample) :
  temp_penalty_of df = Fin (if any_hot df then 20 else 0).
Proof.
  unfold temp_penalty_of.
  destruct df as [| s df]; [reflexivity |].
  cbn [map Pandas.max flt].
  destruct (any_hot (s :: df)) eqn:Hhot.
  - rewrite Rltb_true; [reflexivity |].
    apply any_hot_spec in Hhot. destruct Hhot as [s' [[<- | Hin] H]].
    + apply fold_left_Rmax_gt. now left.
    + apply fold_left_Rmax_gt. right. exists (temp_c s'). split; [| exact H].
      now apply in_map.
  - rewrite Rltb_false; [reflexivity |].
    intro H. apply fold_left_Rmax_gt in H.
    assert (any_hot (s :: df) = true); [| congruence].
    apply any_hot_spec. destruct H as [H | [y [Hin H]]].
    + exists s. split; [now left | exact H].
    + apply in_map_iff in Hin. destruct Hin as [s' [<- Hin]].
      exists s'. split; [now right | exact H].
Qed.

Lemma cycle_penalty_value (latest : sample) :
  cycle_penalty_of latest = Fin (Rmin 20 (IZR (cycles latest) / 1000 * 20)).
Proof.
  unfold cycle_penalty_of, Py.min, fdiv, fmul, flt.
  rewrite (Reqb_false 1000 0) by lra.
  unfold Rltb, Rmin.
  destruct (Rlt_dec _ 20), (Rle_dec 20 _); try reflexivity; lra.
Qed.

Lemma soh_value (latest : sample) :
  energy_design_wh latest <> 0 ->
  soh_of latest = Fin (energy_full_wh latest / energy_design_wh latest * 100).
Proof.
  intro Hd. unfold soh_of, fdiv, fmul. now rewrite Reqb_false.
Qed.

Lemma health_score_value (df : list sample) (latest : sample) :
  energy_design_wh latest <> 0 ->
  health_score_of df latest = Fin (health_value df latest).
Proof.
  intro Hd. unfold health_score_of, health_value.
  rewrite soh_value, cycle_penalty_value, temp_penalty_value by exact Hd.
  destruct (any_hot df); simpl; f_equal; lra.
Qed.

(** With a zero design energy the state of health is an infinity or NaN,
    and so is the health score. *)
Lemma soh_zero_design (latest : sample) :
  energy_design_wh latest = 0 ->
  soh_of latest =
    if Reqb (energy_full_wh latest) 0 then NaN
    else Inf (Rltb (energy_full_wh latest) 0).
Proof.
  intro Hd. unfold soh_of, fdiv, fmul. rewrite Hd, (Reqb_true 0 0) by reflexivity.
  destruct (Reqb (energy_full_wh latest) 0); [reflexivity |].
  rewrite (Reqb_false 100 0), (Rltb_false 100 0) by lra.
  now rewrite xorb_false_r.
Qed.

Lemma health_score_zero_design (df : list sample) (latest : sample) :
  energy_design_wh latest = 0 ->
  health_score_of df latest =
    if Reqb (energy_full_wh latest) 0 then NaN
    else Inf (Rltb (energy_full_wh latest) 0).
Proof.
  intro Hd. unfold health_score_of.
  rewrite soh_zero_design, cycle_penalty_value, temp_penalty_value by exact Hd.
  destruct (Reqb (energy_full_wh latest) 0); [reflexivity |].
  simpl. rewrite (Reqb_false 0.6 0), (Rltb_false 0.6 0) by lra.
  now rewrite xorb_false_r.
Qed.

(** [analyze] raises exactly when the latest design energy is zero. *)
Lemma analyze_zero_design (first second : sample) (rest : list sample) :
  let latest := iloc_last first (second :: rest) in
  energy_design_wh latest = 0 ->
  analyze (first :: second :: rest) =
    Raise (if Reqb (energy_full_wh latest) 0 then ValueError else OverflowError).
Proof.
  intros latest Hd. unfold analyze. fold latest.
  rewrite health_score_zero_design by exact Hd.
  destruct (Reqb (energy_full_wh latest) 0); reflexivity.
Qed.

Lemma analyze_returns (first second : sample) (rest : list sample) :
  let df := first :: second :: rest in
  let latest := iloc_last first (second :: rest) in
  energy_design_wh latest <> 0 ->
  analyze df =
    Ok {| SoH := Py.round (soh_of latest) 2;
          Health_Score := trunc (health_value df latest);
          Discharge_Rate := Fin (round_to 3 (slope_of df));
          Stability_Index := Py.round (v_stability_of df) 2;
          Cycle_Count := cycles latest;
          Recommendations := recs_of latest (soh_of latest) (slope_of df) |}.
Proof.
  intros df latest Hd. subst df. unfold analyze. fold latest.
  rewrite health_score_value by exact Hd. reflexivity.
Qed.

(* ================================================================== *)
(** ** State of health *)

(** Where the design energy is not zero the reported state of health is
    the ratio times 100, rounded to 2 decimals, and it is not negative for
    a positive design energy and a non-negative full energy. *)
Lemma soh_reported (first second : sample) (rest : list sample) :
  let latest := iloc_last first (second :: rest) in
  energy_design_wh latest <> 0 ->
  exists r,
    analyze (first :: second :: rest) = Ok r /\
    SoH r =
      Fin (round_to 2 (energy_full_wh latest / energy_design_wh latest * 100)) /\
    (0 < energy_design_wh latest -> 0 <= energy_full_wh latest ->
     0 <= round_to 2 (energy_full_wh latest / energy_design_wh latest * 100)).
Proof.
  intros latest Hd. eexists. split; [apply analyze_returns; exact Hd |].
  cbn [SoH]. fold latest. rewrite soh_value by exact Hd.
  split; [reflexivity |].
  intros Hpos Hfull. apply round_to_nonneg.
  apply Rmult_le_pos; [| lra].
  apply Rmult_le_pos; [exact Hfull |].
  left. now apply Rinv_0_lt_compat.
Qed.

(** C1.  The division of [analyze] is not guarded: when the latest row has
    design energy 0 the state of health is NaN (full energy 0) or an
    infinity, and [int] of the health score raises, so no report and no
    SoH of 0 is produced. *)
Theorem analyze_zero_design_energy_raises :
  analyze [idle_sample; no_capacity_sample] = Raise ValueError /\
  analyze [idle_sample; no_design_sample] = Raise OverflowError /\
  soh_of no_capacity_sample = NaN /\
  soh_of no_design_sample = Inf false.
Proof.
  split; [| split; [| split]].
  - rewrite analyze_zero_design by reflexivity.
    cbn [iloc_last last energy_full_wh no_capacity_sample].
    now rewrite Reqb_true.
  - rewrite analyze_zero_design by reflexivity.
    cbn [iloc_last last energy_full_wh no_design_sample].
    now rewrite Reqb_false by lra.
  - rewrite soh_zero_design by reflexivity.
    cbn [energy_full_wh no_capacity_sample]. now rewrite Reqb_true.
  - rewrite soh_zero_design by reflexivity.
    cbn [energy_full_wh no_design_sample].
    now rewrite Reqb_false, Rltb_false by lra.
Qed.

(* ================================================================== *)
(** ** Reading the hardware *)

(** [__init__] on [host_healthy] finds the battery and the thermal zone. *)
Lemma init_healthy : __init__ host_healthy = Ok zone_logger.
Proof. reflexivity. Qed.

(** Evaluation of the file and text operations, leaving the arithmetic on
    reals in place. *)
Ltac host_eval :=
  cbv -[IZR Rdiv pow Rmult Rplus Rminus Ropp Rinv Rabs
        Rltb Reqb round_to trunc rint charge_rate].

(** What [_read_sysfs] absorbs: a node that is missing, that cannot be
    read, or whose text is not a number, reads as 0. *)
Lemma read_sysfs_defaults (float_of : string -> option R) (h : host)
    (self : logger) (name : string) (scale : R) :
  let path := joinpath (bat_path self) name in
  node h path = NoFile \/ node h path = Unreadable \/
  (exists t, node h path = Text t /\ float_of (strip t) = None) ->
  _read_sysfs float_of h self name scale = 0.
Proof.
  intros path H. unfold _read_sysfs, exists_, read_text. fold path.
  destruct H as [-> | [-> | [t [-> Ht]]]]; try reflexivity.
  unfold py_float. simpl. now rewrite Ht.
Qed.

(** What [capture_telemetry] does not absorb: the reads of the thermal zone
    and of the status node are made outside [_read_sysfs]. *)
Lemma capture_thermal_read_raises (float_of : string -> option R) (h : host)
    (self : logger) (now tz : string) (e : exn) :
  thermal_zone self = Some tz ->
  read_text h tz = Raise e ->
  capture_telemetry float_of h self now = Raise e.
Proof.
  intros Htz Hread. unfold capture_telemetry. rewrite Htz, Hread. reflexivity.
Qed.

Lemma capture_thermal_parse_raises (float_of : string -> option R) (h : host)
    (self : logger) (now tz t : string) :
  thermal_zone self = Some tz ->
  read_text h tz = Ok t ->
  float_of (strip t) = None ->
  capture_telemetry float_of h self now = Raise ValueError.
Proof.
  intros Htz Hread Hparse. unfold capture_telemetry, py_float.
  rewrite Htz, Hread. simpl. rewrite Hparse. reflexivity.
Qed.

Lemma capture_status_read_raises (float_of : string -> option R) (h : host)
    (self : logger) (now : string) (e : exn) :
  thermal_zone self = None ->
  read_text h (joinpath (bat_path self) "status") = Raise e ->
  capture_telemetry float_of h self now = Raise e.
Proof.
  intros Htz Hread. unfold capture_telemetry. rewrite Htz, Hread. reflexivity.
Qed.

(** The row captured on [host_healthy]: micro-units are scaled, the power
    is derived from voltage and current because no [power_now] node exists,
    and the thermal reading 36500 becomes 36.5 degrees. *)
Lemma capture_healthy_row :
  capture_telemetry decimal_literal host_healthy zone_logger "t0"
  = Ok {| timestamp := "t0"; pct := 80; status := "Discharging";
          voltage_v := 12; current_a := 1.5; power_w := 18; temp_c := 36.5;
          energy_wh := 40; energy_full_wh := 45; energy_design_wh := 50;
          cycles := 100; charge_rate_w := -18 |}.
Proof.
  host_eval. Rdecide. cbn [andb negb]. Rdecide.
  f_equal. f_equal.
  - apply trunc_eq. lra.
  - apply (round_to_eq 3 _ 12). lra.
  - rewrite (round_to_exact 3 _ 1500) by lra. lra.
  - apply (round_to_eq 2 _ 18). lra.
  - rewrite (round_to_exact 1 _ 365) by lra. lra.
  - lra.
  - lra.
  - lra.
  - apply trunc_eq. lra.
  - unfold charge_rate. host_eval. apply (round_to_eq 2 _ (-18)). lra.
Qed.


(** C3.  Not every failing read is absorbed: the thermal zone and the
    status node are read outside [_read_sysfs], so a missing status node, an
    unreadable thermal node or a thermal node without a number makes
    [capture_telemetry] raise; [run] catches only the interrupt, so the loop
    ends with that exception after the rows written before it. *)
Theorem capture_telemetry_read_failures_propagate :
  capture_telemetry decimal_literal host_status_missing zone_logger "t1"
  = Raise FileNotFoundError /\
  capture_telemetry decimal_literal host_thermal_unreadable zone_logger "t1"
  = Raise PermissionError /\
  capture_telemetry decimal_literal host_thermal_garbage zone_logger "t1"
  = Raise ValueError /\
  exists row,
    capture_telemetry decimal_literal host_healthy zone_logger "t0" = Ok row /\
    run decimal_literal zone_logger
      [("t0", host_healthy); ("t1", host_thermal_unreadable);
       ("t2", host_healthy)]
    = ([(row, 2%Z)], Some PermissionError).
Proof.
  split; [| split; [| split]].
  - host_eval. reflexivity.
  - apply capture_thermal_read_raises with (tz := joinpath zone0 "temp");
      reflexivity.
  - apply capture_thermal_parse_raises
      with (tz := joinpath zone0 "temp") (t := "N/A"); reflexivity.
  - eexists. split.
    + host_eval. reflexivity.
    + host_eval. reflexivity.
Qed.

(* ================================================================== *)
(** ** The sign of the charge rate *)





(* ================================================================== *)
(** ** The report on a frame [front ++ [latest]] *)

Lemma frame_latest (front : list sample) (latest : sample) :
  front <> [] ->
  exists first second rest,
    front ++ [latest] = first :: second :: rest /\
    iloc_last first (second :: rest) = latest.
Proof.
  intro Hne. destruct front as [| first front]; [contradiction |].
  assert (Hlast : iloc_last first (front ++ [latest]) = latest)
    by (unfold iloc_last; apply last_last).
  destruct (front ++ [latest]) as [| second rest] eqn:E.
  - destruct front; discriminate.
  - exists first, second, rest. simpl. rewrite E. split; [reflexivity | exact Hlast].
Qed.

Lemma frame_length (front : list sample) (latest : sample) :
  front <> [] -> (2 <= List.length (front ++ [latest]))%nat.
Proof.
  intro Hne. rewrite length_app. simpl.
  destruct front; [contradiction | simpl; lia].
Qed.

Lemma analyze_frame (front : list sample) (latest : sample) :
  front <> [] ->
  let df := front ++ [latest] in
  (energy_design_wh latest <> 0 -> analyze df = Ok (report_of df latest)) /\
  (energy_design_wh latest = 0 -> exists e, analyze df = Raise e) /\
  (forall r, analyze df = Ok r ->
             energy_design_wh latest <> 0 /\ r = report_of df latest).
Proof.
  intros Hne df. subst df.
  destruct (frame_latest front latest Hne)
    as [first [second [rest [Hdf Hlast]]]].
  rewrite Hdf.
  assert (Hok : energy_design_wh latest <> 0 ->
                analyze (first :: second :: rest)
                = Ok (report_of (first :: second :: rest) latest)).
  { intro Hd. rewrite analyze_returns by (rewrite Hlast; exact Hd).
    rewrite Hlast. reflexivity. }
  assert (Hraise : energy_design_wh latest = 0 ->
                   exists e, analyze (first :: second :: rest) = Raise e).
  { intro Hd. eexists. apply analyze_zero_design. rewrite Hlast. exact Hd. }
  split; [exact Hok |]. split; [exact Hraise |].
  intros r Hr.
  destruct (Req_dec_T (energy_design_wh latest) 0) as [Hz | Hnz].
  - destruct (Hraise Hz) as [e He]. congruence.
  - split; [exact Hnz |]. rewrite (Hok Hnz) in Hr. now injection Hr.
Qed.

(* ================================================================== *)
(** ** Stability index *)

Lemma windows_seq (n : nat) (xs : list R) :
  (1 <= n)%nat ->
  windows n xs =
    map (fun j => firstn n (skipn j xs)) (seq 0 (List.length xs + 1 - n)).
Proof.
  intro Hn. induction xs as [| a xs IH].
  - cbn [windows List.length]. replace (0 + 1 - n)%nat with 0%nat by lia.
    reflexivity.
  - cbn [windows]. cbn [List.length].
    destruct (Nat.leb_spec n (S (List.length xs))) as [Hle | Hgt].
    + replace (S (List.length xs) + 1 - n)%nat
        with (S (List.length xs + 1 - n)) by lia.
      cbn [seq map]. f_equal.
      rewrite IH, <- seq_shift, map_map. reflexivity.
    + replace (S (List.length xs) + 1 - n)%nat with 0%nat by lia.
      reflexivity.
Qed.

Lemma seq_from (a m : nat) : seq a m = map (Nat.add a) (seq 0 m).
Proof.
  induction a as [| a IH].
  - symmetry. apply map_id.
  - rewrite <- seq_shift, IH, map_map. reflexivity.
Qed.

Lemma dropna_app (s t : list (option R)) :
  dropna (s ++ t) = dropna s ++ dropna t.
Proof.
  induction s as [| [v |] s IH]; simpl; [reflexivity | now rewrite IH | exact IH].
Qed.

Lemma dropna_absent (f : nat -> option R) (l : list nat) :
  (forall i, In i l -> f i = None) -> dropna (map f l) = [].
Proof.
  induction l as [| i l IH]; intro H; simpl; [reflexivity |].
  rewrite (H i) by now left. apply IH. intros j Hj. apply H. now right.
Qed.

Lemma dropna_present (f : nat -> option R) (g : nat -> R) (l : list nat) :
  (forall i, In i l -> f i = Some (g i)) -> dropna (map f l) = map g l.
Proof.
  induction l as [| i l IH]; intro H; simpl; [reflexivity |].
  rewrite (H i) by now left. simpl. f_equal. apply IH.
  intros j Hj. apply H. now right.
Qed.

(** The values present in the rolling series are the deviations of the
    complete windows. *)
Lemma rolling_std_windows (n : nat) (xs : list R) :
  (1 <= n)%nat ->
  dropna (rolling_std n xs) = map std (windows n xs).
Proof.
  intro Hn. unfold rolling_std. rewrite windows_seq by exact Hn.
  set (len := List.length xs).
  destruct (Nat.le_gt_cases n len) as [Hle | Hgt].
  - replace len with ((n - 1) + (len + 1 - n))%nat at 1 by lia.
    rewrite seq_app, map_app, dropna_app.
    rewrite dropna_absent.
    + cbn [app Nat.add]. rewrite (seq_from (n - 1)), !map_map.
      apply dropna_present. intros j _.
      destruct (Nat.ltb_spec (S (n - 1 + j)) n) as [Hlt | _]; [lia |].
      replace (S (n - 1 + j) - n)%nat with j by lia. reflexivity.
    + intros i Hi. apply in_seq in Hi.
      destruct (Nat.ltb_spec (S i) n) as [_ | Hge]; [reflexivity | lia].
  - replace (len + 1 - n)%nat with 0%nat by lia. cbn [seq map].
    apply dropna_absent. intros i Hi. apply in_seq in Hi.
    destruct (Nat.ltb_spec (S i) n) as [_ | Hge]; [reflexivity | lia].
Qed.

Lemma windows_length (n : nat) (xs : list R) :
  (1 <= n)%nat -> List.length (windows n xs) = (List.length xs + 1 - n)%nat.
Proof.
  intro Hn. rewrite windows_seq by exact Hn. now rewrite length_map, length_seq.
Qed.

Lemma windows_are_runs (n : nat) (xs : list R) :
  Forall (fun w => List.length w = n /\
                   exists older newer, xs = older ++ w ++ newer)
         (windows n xs).
Proof.
  induction xs as [| a xs IH]; [constructor |].
  cbn [windows].
  destruct (Nat.leb_spec n (List.length (a :: xs))) as [Hle | Hgt];
    [| constructor].
  constructor.
  - split; [now apply firstn_length_le |].
    exists [], (skipn n (a :: xs)). cbn [app]. symmetry. apply firstn_skipn.
  - eapply Forall_impl; [| exact IH].
    intros w [Hlen [older [newer ->]]]. split; [exact Hlen |].
    exists (a :: older), newer. reflexivity.
Qed.

Lemma v_stability_windows (df : list sample) :
  (5 <= List.length df)%nat ->
  v_stability_of df = Fin (stability_of_windows (map voltage_v df)).
Proof.
  intro Hlen. unfold v_stability_of, nanmean, stability_of_windows.
  rewrite rolling_std_windows by lia.
  pose proof (windows_length 5 (map voltage_v df)) as Hw.
  rewrite length_map in Hw.
  destruct (windows 5 (map voltage_v df)) as [| w ws].
  - simpl in Hw. lia.
  - cbn [map fmul fsub fneg fadd]. reflexivity.
Qed.




(** Five equal values do not deviate. *)
Lemma std_constant5 (v : R) : std [v; v; v; v; v] = 0.
Proof.
  unfold std, mean, Rsum. cbn -[IZR Rdiv Rmult Rplus Rminus Ropp Rinv INR].
  simpl INR.
  replace (v - (v + (v + (v + (v + (v + 0))))) / (1 + 1 + 1 + 1 + 1)) with 0
    by lra.
  replace ((0 * (0 * 1) + (0 * (0 * 1) + (0 * (0 * 1) + (0 * (0 * 1)
            + (0 * (0 * 1) + 0))))) / (1 + 1 + 1 + 1 + 1 - 1)) with 0 by lra.
  apply sqrt_0.
Qed.


(* ================================================================== *)
(** ** Discharge trend *)

Ltac sums_cons :=
  unfold cross, spread, SX, SY, SXX, SXY, SYY, NP in *;
  cbn [map Rsum fold_right List.length fst snd] in *;
  fold Rsum in *;
  try rewrite S_INR in *.

Lemma centred_cross (mx my : R) (ps : list (R * R)) :
  Rsum (map (fun p => (fst p - mx) * (snd p - my)) ps)
  = SXY ps - mx * SY ps - my * SX ps + NP ps * mx * my.
Proof.
  induction ps as [| p ps IH].
  - unfold SXY, SY, SX, NP. simpl. ring.
  - sums_cons. unfold Rsum in *. cbn [fold_right map]. rewrite IH. ring.
Qed.

Lemma centred_square (mx : R) (ps : list (R * R)) :
  Rsum (map (fun p => (fst p - mx) ^ 2) ps)
  = SXX ps - 2 * mx * SX ps + NP ps * mx * mx.
Proof.
  induction ps as [| p ps IH].
  - unfold SXX, SX, NP. simpl. ring.
  - sums_cons. unfold Rsum in *. cbn [fold_right map]. rewrite IH. ring.
Qed.

Lemma sse_sums (a b : R) (ps : list (R * R)) :
  Rsum (map (fun p => (snd p - (a + b * fst p)) ^ 2) ps)
  = SYY ps - 2 * a * SY ps - 2 * b * SXY ps
    + NP ps * a * a + 2 * a * b * SX ps + b * b * SXX ps.
Proof.
  induction ps as [| p ps IH].
  - unfold SYY, SY, SXY, SX, SXX, NP. simpl. ring.
  - sums_cons. unfold Rsum in *. cbn [fold_right map]. rewrite IH. ring.
Qed.

Lemma cross_cons (p : R * R) (ps : list (R * R)) :
  cross (p :: ps)
  = cross ps + Rsum (map (fun q => (fst q - fst p) * (snd q - snd p)) ps).
Proof.
  rewrite centred_cross. unfold cross, SX, SY, SXY, NP.
  cbn [map List.length]. rewrite S_INR.
  change (Rsum (?a :: ?l)) with (a + Rsum l). ring.
Qed.

Lemma spread_cons (p : R * R) (ps : list (R * R)) :
  spread (p :: ps)
  = spread ps + Rsum (map (fun q => (fst q - fst p) ^ 2) ps).
Proof.
  rewrite centred_square. unfold spread, SX, SXX, NP.
  cbn [map List.length]. rewrite S_INR.
  change (Rsum (?a :: ?l)) with (a + Rsum l). ring.
Qed.

Lemma Rsum_nonneg (l : list R) : Forall (fun v => 0 <= v) l -> 0 <= Rsum l.
Proof.
  induction 1 as [| v l Hv _ IH]; simpl; lra.
Qed.

Lemma Rsum_nonpos (l : list R) : Forall (fun v => v <= 0) l -> Rsum l <= 0.
Proof.
  induction 1 as [| v l Hv _ IH]; simpl; lra.
Qed.

Lemma squares_nonneg (mx : R) (ps : list (R * R)) :
  0 <= Rsum (map (fun q => (fst q - mx) ^ 2) ps).
Proof.
  apply Rsum_nonneg, Forall_forall. intros v Hv.
  apply in_map_iff in Hv. destruct Hv as [q [<- _]]. apply pow2_ge_0.
Qed.

Lemma spread_nonneg (ps : list (R * R)) : 0 <= spread ps.
Proof.
  induction ps as [| p ps IH].
  - unfold spread, SX, SXX, NP. simpl. lra.
  - rewrite spread_cons. pose proof (squares_nonneg (fst p) ps). lra.
Qed.

(** Two points with different abscissas at the head make the spread
    positive. *)
Lemma spread_pos (p q : R * R) (ps : list (R * R)) :
  fst p <> fst q -> 0 < spread (p :: q :: ps).
Proof.
  intro Hne. rewrite spread_cons. cbn [map]. 
  change (Rsum (?a :: ?l)) with (a + Rsum l).
  pose proof (spread_nonneg (q :: ps)).
  pose proof (squares_nonneg (fst p) ps).
  assert (0 < (fst q - fst p) ^ 2); [| lra].
  assert (fst q - fst p <> 0) by lra. simpl. nra.
Qed.

(** The sums of the points [combine x y] are the sums of the columns. *)
Lemma combine_fst (x y : list R) :
  List.length x = List.length y -> map fst (combine x y) = x.
Proof.
  revert y. induction x as [| a x IH]; intros [| b y] H; simpl in *;
    try reflexivity; try discriminate.
  f_equal. apply IH. lia.
Qed.

Lemma combine_snd (x y : list R) :
  List.length x = List.length y -> map snd (combine x y) = y.
Proof.
  revert y. induction x as [| a x IH]; intros [| b y] H; simpl in *;
    try reflexivity; try discriminate.
  f_equal. apply IH. lia.
Qed.

Lemma Sxy_cross (x y : list R) :
  List.length x = List.length y -> x <> [] ->
  Sxy x y = cross (combine x y) / INR (List.length x).
Proof.
  intros Hlen Hne. unfold Sxy. rewrite centred_cross.
  unfold cross, SX, SY, NP, mean.
  rewrite combine_fst, combine_snd, length_combine, <- Hlen, Nat.min_id
    by exact Hlen.
  assert (INR (List.length x) <> 0).
  { apply not_0_INR. destruct x; [contradiction | discriminate]. }
  field. assumption.
Qed.

Lemma Sxx_spread (x y : list R) :
  List.length x = List.length y -> x <> [] ->
  Sxx x = spread (combine x y) / INR (List.length x).
Proof.
  intros Hlen Hne.
  assert (Hps : Sxx x
                = Rsum (map (fun p => (fst p - mean x) ^ 2) (combine x y))).
  { unfold Sxx.
    rewrite <- (map_map fst (fun a => (a - mean x) ^ 2)), combine_fst
      by exact Hlen.
    reflexivity. }
  rewrite Hps, centred_square.
  unfold spread, SX, SXX, NP, mean.
  rewrite combine_fst, length_combine, <- Hlen, Nat.min_id by exact Hlen.
  assert (INR (List.length x) <> 0).
  { apply not_0_INR. destruct x; [contradiction | discriminate]. }
  field. assumption.
Qed.

Lemma coef_cross (x y : list R) :
  List.length x = List.length y -> x <> [] ->
  coef_ x y = cross (combine x y) / spread (combine x y).
Proof.
  intros Hlen Hne. unfold coef_.
  rewrite (Sxy_cross x y Hlen Hne), (Sxx_spread x y Hlen Hne).
  assert (INR (List.length x) <> 0).
  { apply not_0_INR. destruct x; [contradiction | discriminate]. }
  destruct (Req_dec_T (spread (combine x y)) 0) as [-> | Hs].
  - unfold Rdiv. rewrite Rmult_0_l, !Rinv_0, !Rmult_0_r. reflexivity.
  - field. split; assumption.
Qed.

(** The minimum of the squared error as a function of the line, in terms
    of the sums of the points. *)
Lemma line_fit_minimum (N X Y XX XY YY a b : R) :
  0 < N -> 0 < N * XX - X * X ->
  let E := fun a b =>
    YY - 2 * a * Y - 2 * b * XY + N * a * a + 2 * a * b * X + b * b * XX in
  let b0 := (N * XY - X * Y) / (N * XX - X * X) in
  let a0 := Y / N - b0 * (X / N) in
  E a0 b0 <= E a b.
Proof.
  intros HN HD E b0 a0.
  assert (Hid : E a b - E a0 b0
                = N * (a - a0 + (b - b0) * X / N) ^ 2
                  + (b - b0) ^ 2 * ((N * XX - X * X) / N)).
  { unfold E, a0, b0. field. lra. }
  assert (0 <= N * (a - a0 + (b - b0) * X / N) ^ 2).
  { apply Rmult_le_pos; [lra | apply pow2_ge_0]. }
  assert (0 <= (b - b0) ^ 2 * ((N * XX - X * X) / N)).
  { apply Rmult_le_pos; [apply pow2_ge_0 |].
    apply Rmult_le_pos; [lra |]. left. now apply Rinv_0_lt_compat. }
  lra.
Qed.

Lemma least_squares (x y : list R) :
  List.length x = List.length y ->
  0 < spread (combine x y) ->
  forall a b, sse x y (intercept_ x y) (coef_ x y) <= sse x y a b.
Proof.
  intros Hlen Hpos a b.
  assert (Hne : x <> []).
  { intros ->. unfold spread, SX, SXX, NP in Hpos. simpl in Hpos. lra. }
  assert (HN : 0 < INR (List.length x)).
  { apply lt_0_INR. destruct x; [contradiction | simpl; lia]. }
  unfold sse. rewrite !sse_sums.
  unfold intercept_. rewrite (coef_cross x y Hlen Hne).
  unfold mean.
  assert (HX : Rsum x = SX (combine x y))
    by (unfold SX; now rewrite combine_fst).
  assert (HY : Rsum y = SY (combine x y))
    by (unfold SY; now rewrite combine_snd).
  assert (HNP : INR (List.length x) = NP (combine x y)).
  { unfold NP. now rewrite length_combine, <- Hlen, Nat.min_id. }
  rewrite HX, HY, <- Hlen, HNP in *. clear HX HY HNP.
  unfold cross, spread in *.
  apply (line_fit_minimum (NP (combine x y)) (SX (combine x y))
           (SY (combine x y)) (SXX (combine x y)) (SXY (combine x y))
           (SYY (combine x y)) a b HN Hpos).
Qed.

Lemma steeper_trans (g : R) (p q r : R * R) :
  steeper g p q -> steeper g q r -> steeper g p r.
Proof. unfold steeper. intros [H1 H2] [H3 H4]. split; lra. Qed.

Lemma Rsum_map_plus_scaled {A : Type} (g : R) (f h : A -> R) (l : list A) :
  Rsum (map f l) + g * Rsum (map h l)
  = Rsum (map (fun q => f q + g * h q) l).
Proof.
  induction l as [| q l IH]; simpl; [ring |].
  rewrite <- IH. ring.
Qed.

(** Points that fall by at least [g] per unit have a least-squares slope
    of at most [-g]: the cross sum is at most [-g] times the spread. *)
Lemma cross_steep (g : R) (ps : list (R * R)) :
  StronglySorted (steeper g) ps -> cross ps + g * spread ps <= 0.
Proof.
  induction 1 as [| p ps Hs IH Hall].
  - unfold cross, spread, SX, SY, SXX, SXY, NP. simpl. lra.
  - rewrite cross_cons, spread_cons.
    assert (Hsum :
      Rsum (map (fun q => (fst q - fst p) * (snd q - snd p)) ps)
      + g * Rsum (map (fun q => (fst q - fst p) ^ 2) ps) <= 0).
    { rewrite Rsum_map_plus_scaled. apply Rsum_nonpos, Forall_forall.
      intros v Hv. apply in_map_iff in Hv. destruct Hv as [q [<- Hq]].
      rewrite Forall_forall in Hall. destruct (Hall q Hq) as [Hx Hy].
      simpl. nra. }
    lra.
Qed.

Lemma decreasing_steeper (zs : list Z) (k : nat) :
  strictly_decreasing zs ->
  Sorted (steeper 1)
    (combine (map INR (seq k (List.length zs))) (map IZR zs)).
Proof.
  revert k. induction zs as [| a zs IH]; intros k Hdec; [constructor |].
  cbn [List.length seq map combine]. constructor.
  - apply IH. destruct zs; [exact I | apply Hdec].
  - destruct zs as [| b zs]; [constructor |].
    cbn [List.length seq map combine]. constructor.
    destruct Hdec as [Hlt _]. unfold steeper. cbn [fst snd].
    rewrite S_INR. apply IZR_lt in Hlt.
    assert (IZR b + 1 <= IZR a).
    { rewrite <- plus_IZR. apply IZR_le. apply lt_IZR in Hlt. lia. }
    split; lra.
Qed.

Lemma cross_constant (c : R) (ps : list (R * R)) :
  Forall (fun p => snd p = c) ps -> cross ps = 0.
Proof.
  intro H.
  assert (Hs : SXY ps = c * SX ps /\ SY ps = NP ps * c).
  { induction H as [| p ps Hp _ [IH1 IH2]].
    - unfold SXY, SX, SY, NP. simpl. split; ring.
    - unfold SXY, SX, SY, NP in *. cbn [map List.length].
      rewrite S_INR.
      change (Rsum (?a :: ?l)) with (a + Rsum l).
      rewrite IH1, IH2, Hp. split; ring. }
  destruct Hs as [H1 H2]. unfold cross. rewrite H1, H2. ring.
Qed.

(** The points of the regression: positions [0..n-1] against the values. *)
Lemma arange_length (n : nat) : List.length (arange n) = n.
Proof. unfold arange. now rewrite length_map, length_seq. Qed.

Lemma arange_spread_pos (y : list R) :
  (2 <= List.length y)%nat ->
  0 < spread (combine (arange (List.length y)) y).
Proof.
  intro Hlen. destruct y as [| y0 [| y1 y]]; simpl in Hlen; try lia.
  unfold arange. cbn [List.length seq map combine].
  apply spread_pos. simpl. lra.
Qed.

Lemma round_to_le (n : nat) (x : R) (z : Z) :
  x <= IZR z -> round_to n x <= IZR z.
Proof.
  intro H. unfold round_to. pose proof (pow10_pos n) as Hp.
  assert (Hz : (rint (x * 10 ^ n) <= z * 10 ^ Z.of_nat n)%Z).
  { apply rint_le_ceil. rewrite mult_IZR, <- pow_IZR. simpl (IZR 10). nra. }
  apply IZR_le in Hz. rewrite mult_IZR, <- pow_IZR in Hz. simpl (IZR 10) in Hz.
  apply Rmult_le_reg_r with (r := 10 ^ n); [exact Hp |].
  unfold Rdiv. rewrite Rmult_assoc, Rinv_l by lra. lra.
Qed.

Lemma tail_length {A : Type} (n : nat) (l : list A) :
  List.length (tail n l) = Nat.min n (List.length l).
Proof. unfold tail. rewrite length_skipn. lia. Qed.

Lemma tail_suffix {A : Type} (n : nat) (l : list A) :
  l = firstn (List.length l - n) l ++ tail n l.
Proof. unfold tail. symmetry. apply firstn_skipn. Qed.

Lemma slope_cross (df : list sample) :
  (2 <= List.length df)%nat ->
  slope_of df = cross (trend_points df) / spread (trend_points df) /\
  0 < spread (trend_points df).
Proof.
  intro Hlen. unfold slope_of, trend_points.
  set (y := map (fun s => IZR (pct s)) (tail 10 df)).
  assert (Hy : (2 <= List.length y)%nat).
  { unfold y. rewrite length_map, tail_length. lia. }
  split; [| now apply arange_spread_pos].
  apply coef_cross; [apply arange_length |].
  unfold arange. destruct (List.length y); [lia | discriminate].
Qed.

Lemma slope_steep (df : list sample) :
  (2 <= List.length df)%nat ->
  strictly_decreasing (map pct (tail 10 df)) ->
  slope_of df <= -1.
Proof.
  intros Hlen Hdec. destruct (slope_cross df Hlen) as [-> Hpos].
  assert (Hsteep : cross (trend_points df) + 1 * spread (trend_points df) <= 0).
  { apply cross_steep, Sorted_StronglySorted.
    - intros p q r. apply steeper_trans.
    - unfold trend_points, arange.
      rewrite <- (map_map pct IZR), !length_map.
      rewrite <- (length_map pct). now apply decreasing_steeper. }
  apply Rmult_le_reg_r with (r := spread (trend_points df)); [exact Hpos |].
  unfold Rdiv. rewrite Rmult_assoc, Rinv_l by lra. lra.
Qed.

Lemma slope_constant (df : list sample) (c : Z) :
  (2 <= List.length df)%nat ->
  Forall (fun s => pct s = c) (tail 10 df) ->
  slope_of df = 0.
Proof.
  intros Hlen Hc. destruct (slope_cross df Hlen) as [-> Hpos].
  rewrite (cross_constant (IZR c)); [unfold Rdiv; ring |].
  unfold trend_points. apply Forall_forall. intros [px py] Hp.
  apply in_combine_r in Hp. cbn [snd]. apply in_map_iff in Hp.
  destruct Hp as [s [<- Hs]].
  rewrite Forall_forall in Hc. now rewrite (Hc s Hs).
Qed.

Lemma slope_two_rows (s0 s1 : sample) :
  slope_of [s0; s1] = IZR (pct s1) - IZR (pct s0).
Proof.
  unfold slope_of, tail, coef_, Sxy, Sxx, mean, Rsum, arange.
  cbn -[IZR Rdiv Rmult Rplus Rminus Ropp Rinv INR].
  simpl INR. field.
Qed.

(** C7.  The discharge rate of a report is the slope, rounded to 3
    decimals, of the least-squares line through the charge percentages of
    the last (up to) 10 rows against their positions [0..n-1]: no line has
    a smaller squared error on these points.  A strictly decreasing window
    gives a negative slope and a negative rate, a constant window gives 0,
    and on exactly two rows the slope is the difference of the two
    percentages. *)
Theorem discharge_rate_least_squares (front : list sample) (latest : sample) :
  front <> [] ->
  let df := front ++ [latest] in
  let recent := tail 10 df in
  let y := map (fun s => IZR (pct s)) recent in
  let x := arange (List.length y) in
  let slope := slope_of df in
  (exists older, df = older ++ recent) /\
  List.length recent = Nat.min 10 (List.length df) /\
  (energy_design_wh latest <> 0 -> exists r, analyze df = Ok r) /\
  (forall r, analyze df = Ok r -> Discharge_Rate r = Fin (round_to 3 slope)) /\
  (forall a b, sse x y (intercept_ x y) slope <= sse x y a b) /\
  (strictly_decreasing (map pct recent) -> slope < 0 /\ round_to 3 slope < 0) /\
  ((exists c, Forall (fun s => pct s = c) recent) ->
   slope = 0 /\ round_to 3 slope = 0) /\
  (forall s0, front = [s0] -> slope = IZR (pct latest) - IZR (pct s0)).
Proof.
  intros Hne df recent y x slope.
  pose proof (frame_length front latest Hne) as Hlen. fold df in Hlen.
  destruct (analyze_frame front latest Hne) as [Hok [_ Hinv]].
  fold df in Hok, Hinv.
  split; [exists (firstn (List.length df - 10) df); apply tail_suffix |].
  split; [apply tail_length |].
  split; [intro Hd; eexists; apply Hok; exact Hd |].
  split; [intros r Hr; destruct (Hinv r Hr) as [_ ->]; reflexivity |].
  split.
  { intros a b. unfold slope, slope_of. fold recent. fold y. fold x.
    apply least_squares; [apply arange_length |].
    apply arange_spread_pos. unfold y, recent.
    rewrite length_map, tail_length. lia. }
  split.
  { intro Hdec. pose proof (slope_steep df Hlen Hdec) as Hs. fold slope in Hs.
    split; [lra |].
    pose proof (round_to_le 3 slope (-1) Hs). lra. }
  split.
  { intros [c Hc]. pose proof (slope_constant df c Hlen Hc) as Hs.
    fold slope in Hs. split; [exact Hs |].
    rewrite Hs. apply (round_to_IZR 3 0). }
  intros s0 ->. apply slope_two_rows.
Qed.

(** Two rows, 80 percent then 48 percent: the slope is their difference. *)
Lemma discharge_rate_least_squares_witness :
  slope_of ([idle_sample] ++ [worn_sample "t3" 48 41]) < 0 /\
  slope_of ([idle_sample] ++ [worn_sample "t3" 48 41]) = 48 - 80.
Proof.
  assert (Hne : [idle_sample] <> []) by discriminate.
  pose proof (discharge_rate_least_squares [idle_sample]
                (worn_sample "t3" 48 41) Hne) as H.
  cbv zeta in H.
  destruct H as [_ [_ [_ [_ [_ [Hdec [_ Htwo]]]]]]].
  split.
  - apply Hdec. simpl. lia.
  - apply (Htwo idle_sample). reflexivity.
Defined.

(* ================================================================== *)
(** ** The sysfs readers *)

(** X1.  A node that exists, can be read and holds a number reads as that
    number divided by the scale; in every other case the read gives 0. *)
Theorem read_sysfs_value (float_of : string -> option R) (h : host)
    (self : logger) (name : string) (scale : R) :
  let path := joinpath (bat_path self) name in
  (forall t v, node h path = Text t -> float_of (strip t) = Some v ->
               _read_sysfs float_of h self name scale = v / scale) /\
  (node h path = NoFile \/ node h path = Unreadable \/
   (exists t, node h path = Text t /\ float_of (strip t) = None) ->
   _read_sysfs float_of h self name scale = 0).
Proof.
  intro path. split.
  - intros t v Hnode Hparse.
    unfold _read_sysfs, exists_, read_text, py_float. fold path.
    rewrite Hnode. simpl. now rewrite Hparse.
  - apply read_sysfs_defaults.
Qed.

(** The voltage node of [host_healthy], and its missing power node. *)
Lemma read_sysfs_value_witness :
  _read_sysfs decimal_literal host_healthy zone_logger "voltage_now" 1000000
  = 12000000 / 10 ^ 0 / 1000000 /\
  _read_sysfs decimal_literal host_healthy zone_logger "power_now" 1000000 = 0.
Proof.
  pose proof (read_sysfs_value decimal_literal host_healthy zone_logger) as H.
  split.
  - apply (proj1 (H "voltage_now" 1000000) ("12000000" ++ nl)%string);
      reflexivity.
  - apply (proj2 (H "power_now" 1000000)). left. reflexivity.
Defined.

(** X2.  [_read_val_fallback] is never negative; a positive result is the
    reading of the first node of the list that reads positive, and the
    result is 0 exactly when no node of the list reads positive. *)
Theorem read_val_fallback_first_positive (float_of : string -> option R)
    (h : host) (self : logger) (nodes : list string) (scale : R) :
  let v := _read_val_fallback float_of h self nodes scale in
  0 <= v /\
  (0 < v ->
   exists before name after,
     nodes = before ++ name :: after /\
     v = _read_sysfs float_of h self name scale /\
     Forall (fun n => _read_sysfs float_of h self n scale <= 0) before) /\
  (v = 0 <->
   Forall (fun n => _read_sysfs float_of h self n scale <= 0) nodes).
Proof.
  induction nodes as [| name nodes IH]; cbn [_read_val_fallback].
  - split; [lra |]. split; [intro H; lra |]. split; [constructor | reflexivity].
  - destruct IH as [IH0 [IHpos IHzero]].
    unfold Rltb. destruct (Rlt_dec 0 (_read_sysfs float_of h self name scale))
      as [Hpos | Hnpos].
    + split; [lra |]. split.
      * intros _. exists [], name, nodes. repeat split. constructor.
      * split; [intro H0; lra |].
        intro Hall. inversion Hall; subst. lra.
    + split; [exact IH0 |]. split.
      * intro Hv. destruct (IHpos Hv) as [before [n [after [-> [Hn Hb]]]]].
        exists (name :: before), n, after. repeat split; [exact Hn |].
        constructor; [lra | exact Hb].
      * split.
        -- intro H0. constructor; [lra | now apply IHzero].
        -- intro Hall. inversion Hall; subst. now apply IHzero.
Qed.

(** On [host_healthy] the design energy comes from the first node of the
    fallback list. *)
Lemma read_val_fallback_first_positive_witness :
  exists before name after,
    ["energy_full_design"; "charge_full_design"] = before ++ name :: after /\
    _read_val_fallback decimal_literal host_healthy zone_logger
      ["energy_full_design"; "charge_full_design"] 1000000
    = _read_sysfs decimal_literal host_healthy zone_logger name 1000000.
Proof.
  destruct (read_val_fallback_first_positive decimal_literal host_healthy
              zone_logger ["energy_full_design"; "charge_full_design"] 1000000)
    as [_ [Hpos _]].
  destruct Hpos as [before [name [after [Heq [Hv _]]]]].
  - host_eval. Rdecide. lra.
  - exists before, name, after. split; [exact Heq | exact Hv].
Defined.

(* ================================================================== *)
(** ** Discovery of the battery and of the thermal source *)

Lemma prefix_spec (n s : string) :
  String.prefix n s = true <-> exists post, s = (n ++ post)%string.
Proof.
  revert s. induction n as [| c n IH]; intro s.
  - split; [intros _; now exists s | intros _; destruct s; reflexivity].
  - destruct s as [| d s]; simpl.
    + split; [discriminate | intros [post H]; discriminate].
    + destruct (Ascii.ascii_dec c d) as [-> | Hne].
      * rewrite IH. split; intros [post H]; exists post.
        -- now rewrite H.
        -- now injection H.
      * split; [discriminate |]. intros [post H]. injection H as H1 H2.
        congruence.
Qed.

(** [contains] is the substring test. *)
Lemma contains_spec (n s : string) :
  contains n s = true <-> exists pre post, s = (pre ++ n ++ post)%string.
Proof.
  induction s as [| d s IH].
  - cbn [contains]. rewrite orb_false_r, prefix_spec. split.
    + intros [post H]. exists EmptyString, post. exact H.
    + intros [pre [post H]]. destruct pre; [now exists post | discriminate].
  - cbn [contains]. rewrite orb_true_iff, prefix_spec, IH. split.
    + intros [[post H] | [pre [post H]]].
      * exists EmptyString, post. exact H.
      * exists (String d pre), post. simpl. now rewrite H.
    + intros [pre [post H]]. destruct pre as [| c pre].
      * left. now exists post.
      * right. simpl in H. injection H as _ H. now exists pre, post.
Qed.

(** A zone matches when its type label can be read and, stripped and in
    lower case, has one of the four keywords as a substring. *)
Lemma zone_matches_spec (h : host) (zone : string) :
  zone_matches h zone = true <->
  exists t k pre post,
    read_text h (joinpath zone "type") = Ok t /\
    In k ["bat"; "pkg"; "acpi"; "intel"] /\
    lower (strip t) = (pre ++ k ++ post)%string.
Proof.
  unfold zone_matches.
  destruct (read_text h (joinpath zone "type")) as [t | e].
  - rewrite existsb_exists. split.
    + intros [k [Hk Hc]]. apply contains_spec in Hc.
      destruct Hc as [pre [post Hc]]. now exists t, k, pre, post.
    + intros [t' [k [pre [post [Ht [Hk Hc]]]]]]. injection Ht as <-.
      exists k. split; [exact Hk |]. apply contains_spec. now exists pre, post.
  - split; [discriminate |].
    intros [t [k [pre [post [Ht _]]]]]. discriminate.
Qed.

Lemma scan_zones_find (h : host) (zones : list string) :
  scan_zones h zones
  = option_map (fun zone => joinpath zone "temp") (find (zone_matches h) zones).
Proof.
  induction zones as [| zone zones IH]; [reflexivity |].
  cbn [scan_zones find]. unfold zone_matches at 1. unfold fmap, bind.
  destruct (read_text h (joinpath zone "type")) as [t | e]; [| exact IH].
  destruct (existsb _ thermal_keywords); [reflexivity | exact IH].
Qed.

(** X3.  The thermal source is the temperature node of the battery when it
    exists, whatever the thermal zones hold; otherwise it is the temperature
    node of the first zone, in the order of the listing, whose type label
    matches, zones with an unreadable label being passed over; and there is
    no source exactly when neither exists. *)
Theorem discover_thermal_priority (h : host) (bat : string) :
  (exists_ h (joinpath bat "temp") = true ->
   _discover_thermal h bat = Some (joinpath bat "temp")) /\
  (exists_ h (joinpath bat "temp") = false ->
   _discover_thermal h bat
   = option_map (fun zone => joinpath zone "temp")
       (find (zone_matches h) (thermal_zones h))) /\
  (_discover_thermal h bat = None <->
   exists_ h (joinpath bat "temp") = false /\
   forall zone, In zone (thermal_zones h) -> zone_matches h zone = false).
Proof.
  unfold _discover_thermal. rewrite scan_zones_find.
  destruct (exists_ h (joinpath bat "temp")).
  - split; [reflexivity |]. split; [discriminate |].
    split; [discriminate | intros [H _]; discriminate].
  - split; [discriminate |]. split; [reflexivity |].
    split.
    + intro H. split; [reflexivity |].
      destruct (find (zone_matches h) (thermal_zones h)) eqn:E;
        [discriminate |].
      intros zone Hin. exact (find_none _ _ E zone Hin).
    + intros [_ Hnone].
      destruct (find (zone_matches h) (thermal_zones h)) as [zone |] eqn:E;
        [| reflexivity].
      apply find_some in E. destruct E as [Hin Hm].
      rewrite (Hnone zone Hin) in Hm. discriminate.
Qed.

(** The battery's own node wins over a matching zone, and an unreadable
    label is passed over for the zone after it. *)
Lemma discover_thermal_priority_witness :
  _discover_thermal host_battery_temp BAT0 = Some (joinpath BAT0 "temp") /\
  _discover_thermal host_two_zones BAT0
  = Some (joinpath "/sys/class/thermal/thermal_zone1" "temp").
Proof.
  split.
  - apply (proj1 (discover_thermal_priority host_battery_temp BAT0)).
    reflexivity.
  - rewrite (proj1 (proj2 (discover_thermal_priority host_two_zones BAT0)));
      reflexivity.
Defined.

(** X4.  [__init__] raises [RuntimeError] exactly when the listing of the
    power supplies has no battery; otherwise the logger is bound to the
    first battery of the listing, with the thermal source discovered for it
    and no remembered status. *)
Theorem init_requires_battery (h : host) :
  (__init__ h = Raise RuntimeError <-> power_supply_BAT h = []) /\
  (forall self, __init__ h = Ok self ->
     exists bat others,
       power_supply_BAT h = bat :: others /\
       bat_path self = bat /\
       thermal_zone self = _discover_thermal h bat /\
       last_status self = None).
Proof.
  unfold __init__, _discover_battery.
  destruct (power_supply_BAT h) as [| bat others]; simpl.
  - split; [split; reflexivity |]. intros self H. discriminate.
  - split; [split; discriminate |].
    intros self H. injection H as <-. exists bat, others. repeat split.
Qed.

(** No battery: the constructor fails; one battery: it is used. *)
Lemma init_requires_battery_witness :
  __init__ host_no_battery = Raise RuntimeError /\
  exists bat others,
    power_supply_BAT host_healthy = bat :: others /\
    bat_path zone_logger = bat.
Proof.
  split.
  - apply (proj1 (init_requires_battery host_no_battery)). reflexivity.
  - destruct (proj2 (init_requires_battery host_healthy) zone_logger
                init_healthy) as [bat [others [H1 [H2 _]]]].
    exists bat, others. split; [exact H1 | exact H2].
Defined.

(* ================================================================== *)
(** ** The captured row *)

(** What a capture that returns has read, and the row it returns. *)
Lemma capture_inv (float_of : string -> option R) (h : host) (self : logger)
    (now : string) (data : sample) :
  capture_telemetry float_of h self now = Ok data ->
  exists temp_raw st,
    match thermal_zone self with
    | None => temp_raw = 0
    | Some tz =>
        exists t raw,
          read_text h tz = Ok t /\ float_of (strip t) = Some raw /\
          temp_raw = normalised_temp raw
    end /\
    read_text h (joinpath (bat_path self) "status") = Ok st /\
    let volts := _read_sysfs float_of h self "voltage_now" 1000000 in
    let amps := _read_sysfs float_of h self "current_now" 1000000 in
    let power := _read_sysfs float_of h self "power_now" 1000000 in
    timestamp data = now /\
    status data = strip st /\
    temp_c data = round_to 1 temp_raw /\
    power_w data =
      round_to 2 (if Reqb power 0 && negb (Reqb (volts * amps) 0)
                  then volts * amps else power) /\
    energy_full_wh data =
      _read_val_fallback float_of h self ["energy_full"; "charge_full"] 1000000 /\
    energy_design_wh data =
      _read_val_fallback float_of h self design_nodes 1000000.
Proof.
  unfold capture_telemetry. intro H.
  destruct (thermal_zone self) as [tz |].
  - destruct (read_text h tz) as [t | e]; [| discriminate].
    cbn [bind] in H. unfold py_float in H.
    destruct (float_of (strip t)) as [raw |] eqn:Hraw; [| discriminate].
    cbn [bind] in H.
    destruct (read_text h (joinpath (bat_path self) "status")) as [st | e];
      [| discriminate].
    cbn [fmap bind] in H. injection H as <-.
    exists (normalised_temp raw), st.
    split; [exists t, raw; repeat split; assumption |].
    repeat split.
  - cbn [bind] in H.
    destruct (read_text h (joinpath (bat_path self) "status")) as [st | e];
      [| discriminate].
    cbn [fmap bind] in H. injection H as <-.
    exists 0, st. repeat split.
Qed.

(** With the status node readable and the thermal source, if any, readable
    and numeric, the capture returns. *)
Lemma capture_returns (float_of : string -> option R) (h : host)
    (self : logger) (now : string) :
  (thermal_zone self = None \/
   exists tz t raw,
     thermal_zone self = Some tz /\ read_text h tz = Ok t /\
     float_of (strip t) = Some raw) ->
  (exists st, read_text h (joinpath (bat_path self) "status") = Ok st) ->
  exists data, capture_telemetry float_of h self now = Ok data.
Proof.
  intros Htz [st Hst]. unfold capture_telemetry, py_float.
  destruct Htz as [-> | [tz [t [raw [-> [Ht Hraw]]]]]].
  - rewrite Hst. eexists. reflexivity.
  - rewrite Ht. cbn [bind]. rewrite Hraw. cbn [bind]. rewrite Hst.
    eexists. reflexivity.
Qed.

(** The host without design-energy node is captured as well. *)
Lemma capture_returns_no_design :
  exists data,
    capture_telemetry decimal_literal host_no_design zone_logger "t1" = Ok data.
Proof.
  apply capture_returns.
  - right. exists (joinpath zone0 "temp"), ("36500" ++ nl)%string,
      (36500 / 10 ^ 0). repeat split.
  - exists ("Discharging" ++ nl)%string. reflexivity.
Qed.

Lemma fallback_nonneg (float_of : string -> option R) (h : host)
    (self : logger) (nodes : list string) (scale : R) :
  0 <= _read_val_fallback float_of h self nodes scale.
Proof.
  induction nodes as [| name nodes IH]; cbn [_read_val_fallback]; [lra |].
  unfold Rltb. destruct (Rlt_dec 0 _); lra.
Qed.

Lemma fallback_zero_iff (float_of : string -> option R) (h : host)
    (self : logger) (nodes : list string) (scale : R) :
  _read_val_fallback float_of h self nodes scale = 0 <->
  Forall (fun n => _read_sysfs float_of h self n scale <= 0) nodes.
Proof.
  induction nodes as [| name nodes IH]; cbn [_read_val_fallback].
  - split; [constructor | reflexivity].
  - unfold Rltb. destruct (Rlt_dec 0 _) as [Hpos | Hnpos].
    + split; [intro H0; lra | intro Hall; inversion Hall; subst; lra].
    + rewrite IH. split.
      * intro Hall. constructor; [lra | exact Hall].
      * intro Hall. now inversion Hall.
Qed.

(** X8.  The logger and the analyzer together: the full and the design
    energy of a captured row are never negative, and a frame that ends with
    a captured row gets a report exactly when one of the two design-energy
    nodes read a positive value at that capture; when neither did, the
    analysis raises. *)
Theorem captured_row_analysis (float_of : string -> option R) (h : host)
    (self : logger) (now : string) (data : sample) (front : list sample) :
  capture_telemetry float_of h self now = Ok data ->
  front <> [] ->
  0 <= energy_full_wh data /\
  0 <= energy_design_wh data /\
  ((exists r, analyze (front ++ [data]) = Ok r) <->
   exists name,
     In name ["energy_full_design"; "charge_full_design"] /\
     0 < _read_sysfs float_of h self name 1000000) /\
  ((exists e, analyze (front ++ [data]) = Raise e) <->
   forall name,
     In name ["energy_full_design"; "charge_full_design"] ->
     _read_sysfs float_of h self name 1000000 <= 0).
Proof.
  intros Hcap Hne.
  destruct (capture_inv _ _ _ _ _ Hcap)
    as [temp_raw [st [_ [_ [_ [_ [_ [_ [Hfull Hdesign]]]]]]]]].
  destruct (analyze_frame front data Hne) as [Hok [Hraise Hinv]].
  pose proof (fallback_zero_iff float_of h self design_nodes 1000000) as Hz.
  rewrite <- Hdesign in Hz. rewrite Forall_forall in Hz.
  split; [rewrite Hfull; apply fallback_nonneg |].
  split; [rewrite Hdesign; apply fallback_nonneg |].
  split; split.
  - intros [r Hr]. destruct (Hinv r Hr) as [Hd _].
    destruct (Rlt_dec 0 (_read_sysfs float_of h self "energy_full_design" 1000000)).
    + exists "energy_full_design". split; [now left | assumption].
    + destruct (Rlt_dec 0 (_read_sysfs float_of h self "charge_full_design" 1000000)).
      * exists "charge_full_design". split; [right; now left | assumption].
      * exfalso. apply Hd. apply Hz.
        intros name [<- | [<- | []]]; lra.
  - intros [name [Hin Hpos]]. eexists. apply Hok.
    intro Hd. pose proof (proj1 Hz Hd name Hin). lra.
  - intros [e He] name Hin.
    destruct (Req_dec_T (energy_design_wh data) 0) as [Hd | Hd].
    + exact (proj1 Hz Hd name Hin).
    + rewrite (Hok Hd) in He. discriminate.
  - intro Hall. apply Hraise. apply Hz. exact Hall.
Qed.

(** A battery without design-energy node: the row is captured, and the
    frame that ends with it cannot be analysed. *)
Lemma captured_row_analysis_witness :
  exists data e,
    capture_telemetry decimal_literal host_no_design zone_logger "t1" = Ok data /\
    analyze ([idle_sample] ++ [data]) = Raise e.
Proof.
  destruct capture_returns_no_design as [data Hcap].
  assert (Hne : [idle_sample] <> []) by discriminate.
  destruct (captured_row_analysis _ _ _ _ _ [idle_sample] Hcap Hne)
    as [_ [_ [_ Hraise]]].
  destruct (proj2 Hraise) as [e He].
  - intros name [<- | [<- | []]]; host_eval; lra.
  - exists data, e. split; [exact Hcap | exact He].
Defined.

(* ================================================================== *)
(** ** The capture loop *)

Lemma adaptive_sleep_remembers (self : logger) (data : sample) :
  last_status (snd (adaptive_sleep self data)) = Some (status data).
Proof.
  unfold adaptive_sleep.
  destruct (status_differs (status data) (last_status self)) eqn:Hd; simpl.
  - reflexivity.
  - destruct (Rltb 15 (Rabs (power_w data))); simpl; [reflexivity |].
    destruct (last_status self) as [l |]; simpl in Hd; [| discriminate].
    apply negb_false_iff, String.eqb_eq in Hd. now subst.
Qed.

(** X10.  The sleep times of a run follow from its rows alone: the first
    is decided against the status the logger remembered at the start, each
    later one against the status of the row before it, and every one of them
    is 2 or 10. *)
Theorem run_sleep_times (float_of : string -> option R)
    (hosts : list (string * host)) :
  forall (self : logger) (rows : list (sample * Z)) (out : option exn),
    run float_of self hosts = (rows, out) ->
    map snd rows = sleeps_of (last_status self) (map fst rows) /\
    Forall (fun row => snd row = 2%Z \/ snd row = 10%Z) rows.
Proof.
  induction hosts as [| [now h] hosts IH]; intros self rows out Hrun.
  - injection Hrun as <- <-. split; [reflexivity | constructor].
  - cbn [run] in Hrun.
    destruct (capture_telemetry float_of h self now) as [data | e].
    + pose proof (adaptive_sleep_remembers self data) as Hrem.
      pose proof (adaptive_sleep_nextInterval self data) as Hnext.
      destruct (adaptive_sleep self data) as [sleep_time self'].
      cbn [fst snd] in Hrem, Hnext.
      destruct (run float_of self' hosts) as [rows' out'] eqn:Hrest.
      injection Hrun as <- <-.
      destruct (IH self' rows' out' Hrest) as [Hsleeps Hall].
      split.
      * cbn [map fst snd sleeps_of]. now rewrite Hnext, Hsleeps, Hrem.
      * constructor; [| exact Hall]. cbn [snd]. rewrite Hnext.
        unfold nextInterval. destruct (_ || _); [left | right]; reflexivity.
    + injection Hrun as <- <-. split; [reflexivity | constructor].
Qed.

(** The row of [host_healthy] at any time, for any logger bound to its
    battery and thermal zone. *)
Lemma capture_healthy_at (now : string) (self : logger) :
  bat_path self = BAT0 ->
  thermal_zone self = Some (joinpath zone0 "temp") ->
  capture_telemetry decimal_literal host_healthy self now
  = Ok {| timestamp := now; pct := 80; status := "Discharging";
          voltage_v := 12; current_a := 1.5; power_w := 18; temp_c := 36.5;
          energy_wh := 40; energy_full_wh := 45; energy_design_wh := 50;
          cycles := 100; charge_rate_w := -18 |}.
Proof.
  destruct self as [bat tz last]. cbn [bat_path thermal_zone].
  intros -> ->.
  host_eval. Rdecide. cbn [andb negb]. Rdecide.
  f_equal. f_equal.
  - apply trunc_eq. lra.
  - apply (round_to_eq 3 _ 12). lra.
  - rewrite (round_to_exact 3 _ 1500) by lra. lra.
  - apply (round_to_eq 2 _ 18). lra.
  - rewrite (round_to_exact 1 _ 365) by lra. lra.
  - lra.
  - lra.
  - lra.
  - apply trunc_eq. lra.
  - unfold charge_rate. host_eval. apply (round_to_eq 2 _ (-18)). lra.
Qed.

(** A row that draws more than 15 W is followed by a sleep of 2. *)
Lemma adaptive_sleep_loaded (self : logger) (data : sample) :
  15 < Rabs (power_w data) ->
  adaptive_sleep self data = (2%Z, set_last_status self (status data)).
Proof.
  intro H. unfold adaptive_sleep. rewrite (Rltb_true _ _ H).
  now rewrite orb_true_r.
Qed.

(** Two iterations on [host_healthy] and a third with an unreadable
    thermal node. *)
Lemma run_healthy_then_unreadable :
  run decimal_literal zone_logger
    [("t0", host_healthy); ("t1", host_healthy);
     ("t2", host_thermal_unreadable); ("t3", host_healthy)]
  = ([ ({| timestamp := "t0"; pct := 80; status := "Discharging";
           voltage_v := 12; current_a := 1.5; power_w := 18; temp_c := 36.5;
           energy_wh := 40; energy_full_wh := 45; energy_design_wh := 50;
           cycles := 100; charge_rate_w := -18 |}, 2%Z);
       ({| timestamp := "t1"; pct := 80; status := "Discharging";
           voltage_v := 12; current_a := 1.5; power_w := 18; temp_c := 36.5;
           energy_wh := 40; energy_full_wh := 45; energy_design_wh := 50;
           cycles := 100; charge_rate_w := -18 |}, 2%Z) ],
     Some PermissionError).
Proof.
  assert (Hload : 15 < Rabs 18) by (rewrite Rabs_pos_eq; lra).
  cbn [run].
  rewrite (capture_healthy_at "t0" zone_logger) by reflexivity.
  rewrite adaptive_sleep_loaded by exact Hload.
  rewrite (capture_healthy_at "t1") by reflexivity.
  rewrite adaptive_sleep_loaded by exact Hload.
  rewrite (capture_thermal_read_raises decimal_literal
             host_thermal_unreadable _ "t2" (joinpath zone0 "temp")
             PermissionError) by reflexivity.
  reflexivity.
Qed.

(** The two rows draw 18 W, above the threshold: both sleeps are 2. *)
Lemma run_sleep_times_witness :
  sleeps_of None
    [ {| timestamp := "t0"; pct := 80; status := "Discharging";
         voltage_v := 12; current_a := 1.5; power_w := 18; temp_c := 36.5;
         energy_wh := 40; energy_full_wh := 45; energy_design_wh := 50;
         cycles := 100; charge_rate_w := -18 |};
      {| timestamp := "t1"; pct := 80; status := "Discharging";
         voltage_v := 12; current_a := 1.5; power_w := 18; temp_c := 36.5;
         energy_wh := 40; energy_full_wh := 45; energy_design_wh := 50;
         cycles := 100; charge_rate_w := -18 |} ]
  = [2%Z; 2%Z].
Proof.
  destruct (run_sleep_times _ _ _ _ _ run_healthy_then_unreadable)
    as [Hsleeps _].
  symmetry. exact Hsleeps.
Defined.

(* ================================================================== *)
(** ** When the analysis returns, and the range of its scores *)

Lemma analyze_frame_zero (front : list sample) (latest : sample) :
  front <> [] ->
  energy_design_wh latest = 0 ->
  analyze (front ++ [latest])
  = Raise (if Reqb (energy_full_wh latest) 0 then ValueError
           else OverflowError).
Proof.
  intros Hne Hd.
  destruct (frame_latest front latest Hne)
    as [first [second [rest [-> Hlast]]]].
  rewrite analyze_zero_design by (rewrite Hlast; exact Hd).
  now rewrite Hlast.
Qed.

(** X11.  On a frame of two or more rows [analyze] returns a report
    exactly when the design energy of the latest row is not 0.  With a
    design energy of 0 it raises [ValueError] when the full energy is 0 too
    and [OverflowError] when it is not; the other rows of the frame play no
    part in this. *)
Theorem analyze_outcome (front : list sample) (latest : sample) :
  front <> [] ->
  let df := front ++ [latest] in
  ((exists r, analyze df = Ok r) <-> energy_design_wh latest <> 0) /\
  (analyze df = Raise ValueError <->
   energy_design_wh latest = 0 /\ energy_full_wh latest = 0) /\
  (analyze df = Raise OverflowError <->
   energy_design_wh latest = 0 /\ energy_full_wh latest <> 0).
Proof.
  intros Hne df. subst df.
  destruct (analyze_frame front latest Hne) as [Hok [_ Hinv]].
  pose proof (analyze_frame_zero front latest Hne) as Hzero.
  split; [| split].
  - split; [intros [r Hr]; exact (proj1 (Hinv r Hr)) |].
    intro Hd. eexists. exact (Hok Hd).
  - split.
    + intro H. destruct (Req_dec_T (energy_design_wh latest) 0) as [Hd | Hd].
      * split; [exact Hd |]. rewrite (Hzero Hd) in H.
        unfold Reqb in H. destruct (Req_dec_T (energy_full_wh latest) 0);
          [assumption | discriminate].
      * rewrite (Hok Hd) in H. discriminate.
    + intros [Hd Hf]. rewrite (Hzero Hd). now rewrite Reqb_true.
  - split.
    + intro H. destruct (Req_dec_T (energy_design_wh latest) 0) as [Hd | Hd].
      * split; [exact Hd |]. rewrite (Hzero Hd) in H.
        unfold Reqb in H. destruct (Req_dec_T (energy_full_wh latest) 0);
          [discriminate | assumption].
      * rewrite (Hok Hd) in H. discriminate.
    + intros [Hd Hf]. rewrite (Hzero Hd). now rewrite Reqb_false.
Qed.

(** A row at rest is analysed; a row without capacity readings is not. *)
Lemma analyze_outcome_witness :
  (exists r, analyze ([idle_sample] ++ [idle_sample]) = Ok r) /\
  analyze ([idle_sample] ++ [no_capacity_sample]) = Raise ValueError.
Proof.
  assert (Hne : [idle_sample] <> []) by discriminate.
  split.
  - apply (proj1 (analyze_outcome [idle_sample] idle_sample Hne)).
    simpl. lra.
  - apply (proj1 (proj2 (analyze_outcome [idle_sample] no_capacity_sample Hne))).
    split; reflexivity.
Defined.

Lemma trunc_range (x : R) (b : Z) :
  0 <= x -> x <= IZR b -> (0 <= trunc x <= b)%Z.
Proof.
  intros H0 Hb. unfold trunc. destruct (Rle_dec 0 x); [| contradiction].
  pose proof (Zfloor_bound x) as [Hlo _].
  split; [now apply Zfloor_lub |].
  apply le_IZR. lra.
Qed.

(** X12.  For a latest row with a positive design energy, a full energy
    between 0 and the design energy and a cycle count that is not negative,
    the report exists, its SoH lies between 0 and 100 and its health score
    between 0 and 100, whatever the temperatures of the frame. *)
Theorem health_score_range (front : list sample) (latest : sample) :
  front <> [] ->
  0 < energy_design_wh latest ->
  0 <= energy_full_wh latest <= energy_design_wh latest ->
  (0 <= cycles latest)%Z ->
  exists r soh,
    analyze (front ++ [latest]) = Ok r /\
    SoH r = Fin soh /\ 0 <= soh <= 100 /\
    (0 <= Health_Score r <= 100)%Z.
Proof.
  intros Hne Hd [Hf0 Hf1] Hc.
  destruct (analyze_frame front latest Hne) as [Hok _].
  assert (Hnz : energy_design_wh latest <> 0) by lra.
  assert (Hratio : 0 <= energy_full_wh latest / energy_design_wh latest <= 1).
  { pose proof (Rinv_0_lt_compat _ Hd) as Hinv. unfold Rdiv. split.
    - apply Rmult_le_pos; lra.
    - apply Rmult_le_reg_r with (r := energy_design_wh latest); [exact Hd |].
      rewrite Rmult_assoc, Rinv_l by exact Hnz. lra. }
  exists (report_of (front ++ [latest]) latest),
    (round_to 2 (energy_full_wh latest / energy_design_wh latest * 100)).
  split; [exact (Hok Hnz) |].
  split; [cbn [SoH report_of]; now rewrite soh_value |].
  split.
  - split; [apply round_to_nonneg; lra |].
    apply (round_to_le 2 _ 100). lra.
  - cbn [Health_Score report_of]. apply trunc_range; unfold health_value.
    + apply IZR_le in Hc.
      pose proof (Rmin_l 20 (IZR (cycles latest) / 1000 * 20)).
      destruct (any_hot _); lra.
    + apply IZR_le in Hc.
      assert (0 <= Rmin 20 (IZR (cycles latest) / 1000 * 20))
        by (apply Rmin_glb; lra).
      destruct (any_hot _); lra.
Qed.

(** Two rows at rest: SoH 90 and a score of 92. *)
Lemma health_score_range_witness :
  exists r soh,
    analyze ([idle_sample] ++ [idle_sample]) = Ok r /\
    SoH r = Fin soh /\ 0 <= soh <= 100 /\
    (0 <= Health_Score r <= 100)%Z.
Proof.
  apply (health_score_range [idle_sample] idle_sample).
  - discriminate.
  - simpl. lra.
  - simpl. lra.
  - simpl. lia.
Defined.



Lemma any_hot_app (a b : list sample) :
  any_hot (a ++ b) = any_hot a || any_hot b.
Proof. unfold any_hot. apply existsb_app. Qed.

(** X14.  The thermal penalty is permanent: once a row hotter than 45 is in
    the log, the penalty is 20 for that log and for every log that contains
    it, whatever rows precede or follow. *)
Theorem temp_penalty_permanent (df : list sample) :
  (exists s, In s df /\ 45 < temp_c s) ->
  forall before after, temp_penalty_of (before ++ df ++ after) = Fin 20.
Proof.
  intros Hhot before after. apply any_hot_spec in Hhot.
  rewrite temp_penalty_value, !any_hot_app, Hhot.
  now rewrite orb_true_l, orb_true_r.
Qed.

(** A row at 50 degrees followed by cool rows. *)
Lemma temp_penalty_permanent_witness :
  temp_penalty_of ([idle_sample] ++ [worn_sample "t1" 60 50]
                   ++ [idle_sample; idle_sample]) = Fin 20.
Proof.
  apply (temp_penalty_permanent [worn_sample "t1" 60 50]).
  exists (worn_sample "t1" 60 50). split; [now left | simpl; lra].
Defined.

(* ================================================================== *)
(** ** The range of the stability index *)

Lemma std_nonneg (w : list R) : 0 <= std w.
Proof. unfold std. apply sqrt_pos. Qed.

Lemma mean_nonneg (l : list R) : Forall (fun v => 0 <= v) l -> 0 <= mean l.
Proof.
  intro H. unfold mean. pose proof (Rsum_nonneg l H) as Hs.
  destruct l as [| v l].
  - simpl. unfold Rdiv. rewrite Rmult_0_l. lra.
  - apply Rmult_le_pos; [exact Hs |].
    left. apply Rinv_0_lt_compat, lt_0_INR. simpl. lia.
Qed.

Lemma mean_zeros (l : list R) : Forall (fun v => v = 0) l -> mean l = 0.
Proof.
  intro H. unfold mean.
  assert (Hs : Rsum l = 0).
  { induction H as [| v l Hv _ IH]; simpl; [reflexivity | lra]. }
  rewrite Hs. unfold Rdiv. apply Rmult_0_l.
Qed.

Lemma constant_window (v : R) (w : list R) :
  List.length w = 5%nat -> Forall (fun x => x = v) w -> w = [v; v; v; v; v].
Proof.
  intros Hlen Hall.
  destruct w as [| a [| b [| c [| d [| e [| f w]]]]]]; try discriminate.
  repeat match goal with
         | H : Forall _ (_ :: _) |- _ => inversion H; subst; clear H
         end.
  reflexivity.
Qed.

(** X15.  On a frame of five or more rows the reported stability index is
    a finite number that never exceeds 100, and it is exactly 100 when the
    voltage is the same in every row. *)
Theorem stability_index_range (front : list sample) (latest : sample)
    (r : report) :
  front <> [] ->
  let df := front ++ [latest] in
  (5 <= List.length df)%nat ->
  analyze df = Ok r ->
  exists s,
    Stability_Index r = Fin s /\ s <= 100 /\
    ((exists v, Forall (fun row => voltage_v row = v) df) -> s = 100).
Proof.
  intros Hne df Hlen Hr.
  destruct (analyze_frame front latest Hne) as [_ [_ Hinv]]. fold df in Hinv.
  destruct (Hinv r Hr) as [_ ->].
  cbn [Stability_Index report_of].
  rewrite v_stability_windows by exact Hlen.
  unfold stability_of_windows. cbn [Py.round]. eexists.
  split; [reflexivity |]. split.
  - apply (round_to_le 2 _ 100).
    assert (0 <= mean (map std (windows 5 (map voltage_v df)))); [| lra].
    apply mean_nonneg, Forall_forall. intros x Hx.
    apply in_map_iff in Hx. destruct Hx as [w [<- _]]. apply std_nonneg.
  - intros [v Hv]. apply (round_to_eq 2 _ 100).
    rewrite mean_zeros; [lra |].
    apply Forall_forall. intros x Hx.
    apply in_map_iff in Hx. destruct Hx as [w [<- Hw]].
    pose proof (windows_are_runs 5 (map voltage_v df)) as Hruns.
    rewrite Forall_forall in Hruns.
    destruct (Hruns w Hw) as [Hl [older [newer Heq]]].
    rewrite (constant_window v w Hl); [apply std_constant5 |].
    apply Forall_forall. intros y Hy.
    assert (Hin : In y (map voltage_v df)).
    { rewrite Heq. apply in_or_app. right. apply in_or_app. now left. }
    apply in_map_iff in Hin. destruct Hin as [row [<- Hrow]].
    rewrite Forall_forall in Hv. now apply Hv.
Qed.

(** Five rows at a constant 12 V. *)
Lemma stability_index_range_witness :
  exists r, analyze steady_frame = Ok r /\ Stability_Index r = Fin 100.
Proof.
  assert (Hne : [idle_sample; idle_sample; idle_sample; idle_sample] <> [])
    by discriminate.
  destruct (analyze_frame _ idle_sample Hne) as [Hok _].
  assert (Hr : analyze steady_frame = Ok (report_of steady_frame idle_sample))
    by (apply Hok; simpl; lra).
  eexists. split; [exact Hr |].
  pose proof (stability_index_range
                [idle_sample; idle_sample; idle_sample; idle_sample]
                idle_sample (report_of steady_frame idle_sample) Hne) as H.
  cbv zeta in H.
  assert (Hlen : (5 <= List.length steady_frame)%nat) by (simpl; lia).
  destruct (H Hlen Hr) as [s [Hs [_ Hconst]]].
  rewrite Hs. f_equal. apply Hconst.
  exists 12. repeat constructor.
Defined.

(* ================================================================== *)
(** ** What the discharge rate depends on *)

Lemma tail_app {A : Type} (n : nat) (older recent : list A) :
  (n <= List.length recent)%nat -> tail n (older ++ recent) = tail n recent.
Proof.
  intro H. unfold tail. rewrite length_app, skipn_app.
  rewrite skipn_all2 by lia. cbn [app]. f_equal. lia.
Qed.

(** X16.  The slope is decided by the percentages of the last 10 rows and
    by nothing else: two frames whose last 10 rows carry the same
    percentages have the same slope, and rows older than the last 10 never
    change it. *)
Theorem slope_last_ten :
  (forall df df',
      map pct (tail 10 df) = map pct (tail 10 df') ->
      slope_of df = slope_of df') /\
  (forall older recent,
      (10 <= List.length recent)%nat ->
      slope_of (older ++ recent) = slope_of recent).
Proof.
  assert (Hdep : forall df df',
             map pct (tail 10 df) = map pct (tail 10 df') ->
             slope_of df = slope_of df').
  { intros df df' H. unfold slope_of.
    rewrite <- !(map_map pct IZR), H. reflexivity. }
  split; [exact Hdep |].
  intros older recent Hlen. apply Hdep.
  rewrite tail_app by exact Hlen. reflexivity.
Qed.

(** Ten rows falling by one percent each, after two older rows. *)
Lemma slope_last_ten_witness :
  slope_of ([idle_sample; idle_sample] ++ last_ten) = slope_of last_ten.
Proof.
  apply (proj2 slope_last_ten). simpl. lia.
Defined.

Lemma cross_rising (g : R) (ps : list (R * R)) :
  StronglySorted (rising g) ps -> g * spread ps <= cross ps.
Proof.
  induction 1 as [| p ps Hs IH Hall].
  - unfold cross, spread, SX, SY, SXX, SXY, NP. simpl. lra.
  - rewrite cross_cons, spread_cons.
    assert (Hsum :
      Rsum (map (fun q => (fst q - fst p) * (snd q - snd p)) ps)
      + (- g) * Rsum (map (fun q => (fst q - fst p) ^ 2) ps) >= 0).
    { rewrite Rsum_map_plus_scaled. apply Rle_ge, Rsum_nonneg, Forall_forall.
      intros v Hv. apply in_map_iff in Hv. destruct Hv as [q [<- Hq]].
      rewrite Forall_forall in Hall. destruct (Hall q Hq) as [Hx Hy].
      simpl. nra. }
    lra.
Qed.

Lemma rising_trans (g : R) (p q r : R * R) :
  rising g p q -> rising g q r -> rising g p r.
Proof. unfold rising. intros [H1 H2] [H3 H4]. split; lra. Qed.

Lemma increasing_rising (zs : list Z) (k : nat) :
  strictly_increasing zs ->
  Sorted (rising 1)
    (combine (map INR (seq k (List.length zs))) (map IZR zs)).
Proof.
  revert k. induction zs as [| a zs IH]; intros k Hinc; [constructor |].
  cbn [List.length seq map combine]. constructor.
  - apply IH. destruct zs; [exact I | apply Hinc].
  - destruct zs as [| b zs]; [constructor |].
    cbn [List.length seq map combine]. constructor.
    destruct Hinc as [Hlt _]. unfold rising. cbn [fst snd].
    rewrite S_INR.
    assert (IZR a + 1 <= IZR b).
    { rewrite <- plus_IZR. apply IZR_le. lia. }
    split; lra.
Qed.

Lemma round_to_ge (n : nat) (x : R) (z : Z) :
  IZR z <= x -> IZR z <= round_to n x.
Proof.
  intro H. unfold round_to. pose proof (pow10_pos n) as Hp.
  assert (Hz : (z * 10 ^ Z.of_nat n <= rint (x * 10 ^ n))%Z).
  { etransitivity; [| apply rint_floor_le]. apply Zfloor_lub.
    rewrite mult_IZR, <- pow_IZR. simpl (IZR 10). nra. }
  apply IZR_le in Hz. rewrite mult_IZR, <- pow_IZR in Hz. simpl (IZR 10) in Hz.
  apply Rmult_le_reg_r with (r := 10 ^ n); [exact Hp |].
  unfold Rdiv. rewrite Rmult_assoc, Rinv_l by lra. lra.
Qed.

(** X17.  A window of strictly increasing percentages gives a slope of at
    least 1 percent per row, and a reported rate of at least 1. *)
Theorem slope_rising (front : list sample) (latest : sample) :
  front <> [] ->
  let df := front ++ [latest] in
  strictly_increasing (map pct (tail 10 df)) ->
  1 <= slope_of df /\ 1 <= round_to 3 (slope_of df).
Proof.
  intros Hne df Hinc.
  pose proof (frame_length front latest Hne) as Hlen. fold df in Hlen.
  assert (Hs : 1 <= slope_of df).
  { destruct (slope_cross df Hlen) as [-> Hpos].
    assert (Hrise : 1 * spread (trend_points df) <= cross (trend_points df)).
    { apply cross_rising, Sorted_StronglySorted.
      - intros p q r. apply rising_trans.
      - unfold trend_points, arange.
        rewrite <- (map_map pct IZR), !length_map.
        rewrite <- (length_map pct). now apply increasing_rising. }
    apply Rmult_le_reg_r with (r := spread (trend_points df)); [exact Hpos |].
    unfold Rdiv. rewrite Rmult_assoc, Rinv_l by lra. lra. }
  split; [exact Hs |]. apply (round_to_ge 3 _ 1). exact Hs.
Qed.

(** 50, 52 and 55 percent. *)
Lemma slope_rising_witness : 1 <= slope_of charging_frame.
Proof.
  apply (slope_rising [worn_sample "t0" 50 30; worn_sample "t1" 52 30]
           (worn_sample "t2" 55 30)).
  - discriminate.
  - simpl. lia.
Defined.

(* ================================================================== *)
(** ** The two signs of the charge rate *)

Lemma rint_opp (x : R) : rint (- x) = (- rint x)%Z.
Proof.
  pose proof (Zfloor_bound x) as [Hlo Hhi].
  destruct (Req_dec_T x (IZR (Zfloor x))) as [Hint | Hfrac].
  - rewrite Hint, <- opp_IZR, !rint_IZR. reflexivity.
  - assert (Hf : Zfloor (- x) = (- Zfloor x - 1)%Z).
    { apply Zfloor_eq. rewrite minus_IZR, opp_IZR. lra. }
    unfold rint. rewrite Hf, minus_IZR, opp_IZR.
    destruct (Rlt_dec (x - IZR (Zfloor x)) (1 / 2)) as [Hl | Hnl].
    + destruct (Rlt_dec (- x - (- IZR (Zfloor x) - 1)) (1 / 2)); [lra |].
      destruct (Rlt_dec (1 / 2) (- x - (- IZR (Zfloor x) - 1))); [lia | lra].
    + destruct (Rlt_dec (1 / 2) (x - IZR (Zfloor x))) as [Hg | Hng].
      * destruct (Rlt_dec (- x - (- IZR (Zfloor x) - 1)) (1 / 2)); [lia | lra].
      * destruct (Rlt_dec (- x - (- IZR (Zfloor x) - 1)) (1 / 2)); [lra |].
        destruct (Rlt_dec (1 / 2) (- x - (- IZR (Zfloor x) - 1))); [lra |].
        replace (- Zfloor x - 1)%Z with (- Zfloor x - 1 * 1)%Z by lia.
        rewrite Z.even_sub, Z.even_opp. cbn [Z.mul Z.even Pos.mul].
        destruct (Z.even (Zfloor x)); cbn [Bool.eqb]; lia.
Qed.

Lemma round_to_opp (n : nat) (x : R) : round_to n (- x) = - round_to n x.
Proof.
  unfold round_to. rewrite <- Ropp_mult_distr_l, rint_opp, opp_IZR.
  unfold Rdiv. ring.
Qed.

(** X18.  For the same voltage and current readings the charge rate under
    any status other than "Charging" is the opposite of the charge rate
    under "Charging": the status decides the sign and nothing else. *)
Theorem charge_rate_opposite (status : string) (volts amps : R) :
  status <> "Charging" ->
  charge_rate status volts amps = - charge_rate "Charging" volts amps /\
  Rabs (charge_rate status volts amps)
  = Rabs (charge_rate "Charging" volts amps).
Proof.
  intro Hne. unfold charge_rate.
  destruct (String.eqb_spec status "Charging") as [Heq | _]; [contradiction |].
  cbn [String.eqb Ascii.eqb Bool.eqb andb].
  rewrite round_to_opp. split; [reflexivity | apply Rabs_Ropp].
Qed.

(** 12 V and 1.5 A. *)
Lemma charge_rate_opposite_witness :
  charge_rate "Discharging" 12 1.5 = - charge_rate "Charging" 12 1.5.
Proof.
  apply (charge_rate_opposite "Discharging" 12 1.5). discriminate.
Defined.

(* ================================================================== *)
(** ** The log file *)

Import LogFile.

(** X19.  [_init_csv] is safe across restarts.  A log that exists is left
    as it is, whether or not it could be written.  Where none exists and
    the path can be written, the log is created holding the header line of
    the twelve column names and nothing else, and no other file of the host
    changes; where the path cannot be written the call raises.  Calling it
    again on the result changes nothing. *)
Theorem init_csv_restart_safe (h : host) (writable : string -> bool)
    (filename : string) :
  (exists_ h filename = true -> _init_csv h writable filename = Ok h) /\
  (exists_ h filename = false -> writable filename = false ->
   _init_csv h writable filename = Raise PermissionError) /\
  (forall h', _init_csv h writable filename = Ok h' ->
     exists_ h' filename = true /\
     (exists_ h filename = false ->
      node h' filename
      = Text ("timestamp,pct,status,voltage_v,current_a,power_w,temp_c,"
              ++ "energy_wh,energy_full_wh,energy_design_wh,cycles,"
              ++ "charge_rate_w" ++ crlf)%string) /\
     (forall path, path <> filename -> node h' path = node h path) /\
     power_supply_BAT h' = power_supply_BAT h /\
     thermal_zones h' = thermal_zones h /\
     _init_csv h' writable filename = Ok h').
Proof.
  unfold _init_csv, open_w.
  destruct (exists_ h filename) eqn:Hex; cbn [negb].
  - split; [reflexivity |]. split; [discriminate |].
    intros h' H. injection H as <-. rewrite Hex.
    repeat split. discriminate.
  - split; [discriminate |]. split; [intros _ ->; reflexivity |].
    intros h' H. destruct (writable filename); [| discriminate].
    injection H as <-.
    assert (Hnew : exists_ (written h filename (writeheader fields)) filename
                   = true).
    { unfold exists_, written. cbn [node]. now rewrite String.eqb_refl. }
    rewrite Hnew. cbn [negb]. repeat split.
    + unfold written. cbn [node]. now rewrite String.eqb_refl.
    + intros path Hne. unfold written. cbn [node].
      destruct (String.eqb_spec path filename); [contradiction | reflexivity].
Qed.

(** On a host without log the header is written; on a host with a log the
    row it holds is kept. *)
Lemma init_csv_restart_safe_witness :
  (exists h',
     _init_csv host_healthy (fun _ => true) log_name = Ok h' /\
     exists_ h' log_name = true) /\
  _init_csv host_with_log (fun _ => true) log_name = Ok host_with_log.
Proof.
  split.
  - eexists. split; [reflexivity |].
    apply (proj2 (proj2 (init_csv_restart_safe host_healthy (fun _ => true)
                           log_name))).
    reflexivity.
  - apply (proj1 (init_csv_restart_safe host_with_log (fun _ => true)
                    log_name)).
    reflexivity.
Defined.

(* ================================================================== *)
(** ** Binary64: the order of the comparison, and the maximum *)

Section Binary64.

Import PrimFloat SpecFloat FloatOps FloatAxioms.
Local Open Scope float_scope.
Set Warnings "-inexact-float".

Lemma SFcompare_key (f g : spec_float) :
  SFcompare f g =
    match float_key f, float_key g with
    | Some a, Some b => Some (lex a b)
    | _, _ => None
    end.
Proof.
  destruct f as [sf | sf | | sf mf ef], g as [sg | sg | | sg mg eg];
    try reflexivity;
    try (destruct sf; reflexivity);
    try (destruct sg; reflexivity);
    try (destruct sf, sg; reflexivity).
  destruct sf, sg; try reflexivity;
    unfold float_key, lex, SFcompare; cbn [fst snd].
  destruct (Z.compare_spec ef eg) as [H | H | H].
  - subst eg. rewrite !Z.compare_refl. reflexivity.
  - assert (E : (- ef ?= - eg)%Z = Gt) by (apply Z.compare_gt_iff; lia).
    now rewrite E.
  - assert (E : (- ef ?= - eg)%Z = Lt) by (apply Z.compare_lt_iff; lia).
    now rewrite E.
Qed.

Lemma lex_lt (a b : Z * Z * Z) :
  lex a b = Lt <->
  (fst (fst a) < fst (fst b) \/
   fst (fst a) = fst (fst b) /\
   (snd (fst a) < snd (fst b) \/
    snd (fst a) = snd (fst b) /\ snd a < snd b))%Z.
Proof.
  unfold lex.
  destruct (Z.compare_spec (fst (fst a)) (fst (fst b)));
    destruct (Z.compare_spec (snd (fst a)) (snd (fst b)));
    destruct (Z.compare_spec (snd a) (snd b));
    split; intro; try discriminate; try reflexivity; lia.
Qed.

(** [x < y] holds when both have a place in the order and the place of [x]
    is the earlier one. *)
Lemma ltb_key (x y : float) :
  (x <? y) = true <->
  exists a b,
    float_key (Prim2SF x) = Some a /\ float_key (Prim2SF y) = Some b /\
    lex a b = Lt.
Proof.
  rewrite ltb_spec. unfold SFltb. rewrite SFcompare_key.
  destruct (float_key (Prim2SF x)) as [a |], (float_key (Prim2SF y)) as [b |].
  - split.
    + intro H. exists a, b. repeat split. destruct (lex a b); congruence.
    + intros [a' [b' [Ha [Hb H]]]]. injection Ha as <-. injection Hb as <-.
      now rewrite H.
  - split; [discriminate | intros [a' [b' [_ [H _]]]]; discriminate].
  - split; [discriminate | intros [a' [b' [H _]]]; discriminate].
  - split; [discriminate | intros [a' [b' [H _]]]; discriminate].
Qed.

Lemma is_nan_key (x : float) :
  is_nan x = false <-> exists a, float_key (Prim2SF x) = Some a.
Proof.
  unfold is_nan. rewrite negb_false_iff, eqb_spec. unfold SFeqb.
  rewrite SFcompare_key. destruct (float_key (Prim2SF x)) as [a |].
  - split; [intros _; now exists a |]. intros _.
    assert (H : lex a a = Eq) by (unfold lex; now rewrite !Z.compare_refl).
    now rewrite H.
  - split; [discriminate | intros [a H]; discriminate].
Qed.

Lemma ltb_trans (a b c : float) :
  (a <? b) = true -> (b <? c) = true -> (a <? c) = true.
Proof.
  rewrite !ltb_key.
  intros [ka [kb [Ha [Hb Hab]]]] [kb' [kc [Hb' [Hc Hbc]]]].
  rewrite Hb in Hb'. injection Hb' as <-.
  exists ka, kc. repeat split; try assumption.
  apply lex_lt in Hab. apply lex_lt in Hbc. apply lex_lt. lia.
Qed.

(** A value below [x] is below every number that is not below [x]. *)
Lemma ltb_below (a acc x : float) :
  (a <? x) = true -> (acc <? x) = false -> is_nan acc = false ->
  (a <? acc) = true.
Proof.
  intros Hax Haccx Hacc.
  apply ltb_key in Hax. destruct Hax as [ka [kx [Ha [Hx Hlt]]]].
  apply is_nan_key in Hacc. destruct Hacc as [kacc Hkacc].
  apply ltb_key. exists ka, kacc. repeat split; try assumption.
  assert (Hn : lex kacc kx <> Lt).
  { intro E. assert (H : (acc <? x) = true); [| congruence].
    apply ltb_key. now exists kacc, kx. }
  apply lex_lt in Hlt. rewrite lex_lt in Hn. apply lex_lt. lia.
Qed.

Lemma ltb_nan (a x : float) : is_nan x = true -> (a <? x) = false.
Proof.
  intro H. destruct (a <? x) eqn:E; [| reflexivity].
  apply ltb_key in E. destruct E as [ka [kx [_ [Hx _]]]].
  assert (is_nan x = false) by (apply is_nan_key; now exists kx). congruence.
Qed.

Lemma max_above (c : float) (xs : list float) (acc : float) :
  (c <? fold_left (fun acc x =>
                     if is_nan x then acc
                     else if is_nan acc then x
                     else if acc <? x then x else acc) xs acc)
  = (c <? acc) || existsb (fun x => c <? x) xs.
Proof.
  revert acc. induction xs as [| x xs IH]; intro acc.
  - simpl. now rewrite orb_false_r.
  - cbn [fold_left existsb]. rewrite IH.
    destruct (is_nan x) eqn:Hx.
    + now rewrite (ltb_nan c x Hx).
    + destruct (is_nan acc) eqn:Hacc.
      * now rewrite (ltb_nan c acc Hacc).
      * destruct (acc <? x) eqn:Hlt.
        -- destruct (c <? acc) eqn:Hc.
           ++ now rewrite (ltb_trans c acc x Hc Hlt).
           ++ reflexivity.
        -- destruct (c <? x) eqn:Hc.
           ++ now rewrite (ltb_below c acc x Hc Hlt Hacc).
           ++ now rewrite orb_false_l.
Qed.

(** The maximum of a column is above a bound exactly when one of its
    values is. *)
Lemma max_gt (c : float) (xs : list float) :
  (c <? B64.max xs) = existsb (fun x => c <? x) xs.
Proof.
  unfold B64.max. rewrite max_above.
  rewrite (ltb_nan c nan) by reflexivity. reflexivity.
Qed.

Lemma existsb_map {A B : Type} (f : B -> bool) (g : A -> B) (l : list A) :
  existsb f (map g l) = existsb (fun a => f (g a)) l.
Proof. induction l as [| a l IH]; simpl; [reflexivity | now rewrite IH]. Qed.

Lemma temp_penalty_any (df : list B64.row) :
  B64.temp_penalty_of df
  = if existsb (fun s => 45 <? B64.temp_c s) df then 20 else 0.
Proof. unfold B64.temp_penalty_of. now rewrite max_gt, existsb_map. Qed.

(* ================================================================== *)
(** ** Binary64: the health score and the recommendations *)

Lemma rows_latest (front : list B64.row) (latest : B64.row) :
  front <> [] ->
  exists first second rest,
    front ++ [latest] = first :: second :: rest /\
    last (second :: rest) first = latest.
Proof.
  intro Hne. destruct front as [| first front]; [contradiction |].
  assert (Hlast : last (front ++ [latest]) first = latest) by apply last_last.
  destruct (front ++ [latest]) as [| second rest] eqn:E.
  - destruct front; discriminate.
  - exists first, second, rest. simpl. rewrite E. split; [reflexivity | exact Hlast].
Qed.

(** [analyze] on a frame of two or more rows. *)
Lemma analyze_rows (coef_ : list Z -> float) (front : list B64.row)
    (latest : B64.row) :
  front <> [] ->
  let df := front ++ [latest] in
  B64.analyze coef_ df
  = (score <- B64.int (B64.health_score_of df latest) ;;
     Ok {| B64.Health_Score := score;
           B64.Recommendations :=
             B64.recs_of latest (B64.soh_of latest) (B64.slope_of coef_ df) |}).
Proof.
  intros Hne df. subst df.
  destruct (rows_latest front latest Hne) as [first [second [rest [-> Hlast]]]].
  unfold B64.analyze. rewrite Hlast. reflexivity.
Qed.

(** C6.  On a frame of two or more rows the health score is
    [SoH * 0.6 + (20 - cycle_penalty) + (20 - temp_penalty)] truncated to an
    integer, every operation being the binary64 one, in the order of the
    source: the SoH and the cycle count are those of the latest row,
    [cycle_penalty = min(20, cycles / 1000 * 20)], and [temp_penalty] is 20
    when some row of the frame, at any position, is hotter than 45 and 0
    when no row is.  When that sum is NaN or an infinity the analysis raises
    as [int] does. *)
Theorem health_score_composite (coef_ : list Z -> float)
    (front : list B64.row) (latest : B64.row) :
  front <> [] ->
  let df := front ++ [latest] in
  let soh := B64.energy_full_wh latest / B64.energy_design_wh latest * 100 in
  let wear := B64.of_int (B64.cycles latest) / 1000 * 20 in
  let cycle_penalty := if wear <? 20 then wear else 20 in
  let temp_penalty :=
    if existsb (fun s => 45 <? B64.temp_c s) df then 20 else 0 in
  fmap B64.Health_Score (B64.analyze coef_ df)
  = B64.int (soh * 0.6 + (20 - cycle_penalty) + (20 - temp_penalty)) /\
  ((exists s, In s df /\ (45 <? B64.temp_c s) = true) -> temp_penalty = 20) /\
  ((forall s, In s df -> (45 <? B64.temp_c s) = false) -> temp_penalty = 0).
Proof.
  intros Hne df soh wear cycle_penalty temp_penalty.
  split; [| split].
  - unfold df. rewrite (analyze_rows coef_ front latest Hne). fold df.
    unfold B64.health_score_of. rewrite temp_penalty_any.
    fold temp_penalty.
    change (B64.soh_of latest) with soh.
    change (B64.cycle_penalty_of latest) with cycle_penalty.
    destruct (B64.int _); reflexivity.
  - intro Hhot. unfold temp_penalty.
    now rewrite (proj2 (existsb_exists _ df) Hhot).
  - intro Hcool. unfold temp_penalty.
    destruct (existsb _ df) eqn:E; [| reflexivity].
    apply existsb_exists in E. destruct E as [s [Hin Hs]].
    rewrite (Hcool s Hin) in Hs. discriminate.
Qed.

(** Full energy 40 of a design energy of 60 after 1000 cycles: the sum is
    [59.99999999999999] and the score 59; with a row above 45 degrees at
    the front of the frame it is 39. *)
Lemma health_score_composite_witness :
  fmap B64.Health_Score
    (B64.analyze (fun _ => 0) ([aged_row 30] ++ [aged_row 30])) = Ok 59%Z /\
  fmap B64.Health_Score
    (B64.analyze (fun _ => 0) ([aged_row 46; aged_row 30] ++ [aged_row 30]))
  = Ok 39%Z.
Proof.
  split.
  - rewrite (proj1 (health_score_composite (fun _ => 0)
                      [aged_row 30] (aged_row 30) ltac:(discriminate))).
    vm_compute. reflexivity.
  - rewrite (proj1 (health_score_composite (fun _ => 0)
                      [aged_row 46; aged_row 30] (aged_row 30)
                      ltac:(discriminate))).
    vm_compute. reflexivity.
Defined.

Lemma recs_of_rules (latest : B64.row) (soh slope : float) :
  B64.recs_of latest soh slope
  = (if 40 <? B64.temp_c latest then [rec_thermal] else [])
    ++ (if soh <? 80 then [rec_eol] else [])
    ++ (if slope <? -0.5 then [rec_discharge] else []).
Proof.
  unfold B64.recs_of.
  destruct (40 <? _), (soh <? 80), (slope <? -0.5); reflexivity.
Qed.

Lemma analyze_recommendations (coef_ : list Z -> float)
    (front : list B64.row) (latest : B64.row) (r : B64.report) :
  front <> [] ->
  B64.analyze coef_ (front ++ [latest]) = Ok r ->
  B64.Recommendations r
  = B64.recs_of latest (B64.soh_of latest)
      (coef_ (map B64.pct (Pandas.tail 10 (front ++ [latest])))).
Proof.
  intros Hne Hr. rewrite (analyze_rows coef_ front latest Hne) in Hr.
  destruct (B64.int _) as [score | e]; [| discriminate].
  cbn [bind] in Hr. injection Hr as <-. reflexivity.
Qed.

(** C8.  The recommendations of a report are the advisories of the three
    rules (latest temperature above 40, SoH below 80, slope below -0.5),
    each decided on its own by the binary64 comparison and listed in that
    order: an advisory is in the list exactly when its rule matches.
    Temperature 41, SoH 75 and slope -0.6 give the three advisories, and
    values matching no rule give the empty list, for the rules and for
    [analyze] on frames with such values, whatever coefficient on that side
    of -0.5 the regression returns. *)
Theorem recommendations_independent :
  (forall (coef_ : list Z -> float) (front : list B64.row)
          (latest : B64.row) (r : B64.report),
      front <> [] ->
      B64.analyze coef_ (front ++ [latest]) = Ok r ->
      let soh := B64.energy_full_wh latest / B64.energy_design_wh latest * 100 in
      let slope := coef_ (map B64.pct (Pandas.tail 10 (front ++ [latest]))) in
      B64.Recommendations r =
        (if 40 <? B64.temp_c latest then [rec_thermal] else [])
        ++ (if soh <? 80 then [rec_eol] else [])
        ++ (if slope <? -0.5 then [rec_discharge] else []) /\
      (In rec_thermal (B64.Recommendations r) <->
       (40 <? B64.temp_c latest) = true) /\
      (In rec_eol (B64.Recommendations r) <-> (soh <? 80) = true) /\
      (In rec_discharge (B64.Recommendations r) <-> (slope <? -0.5) = true)) /\
  (forall latest : B64.row,
      B64.temp_c latest = 41 ->
      B64.recs_of latest 75 (-0.6) = [rec_thermal; rec_eol; rec_discharge]) /\
  (forall latest : B64.row,
      B64.temp_c latest = 40 -> B64.recs_of latest 80 (-0.5) = []) /\
  (forall coef_ : list Z -> float,
      (coef_ [50; 49; 49; 48]%Z <? -0.5) = true ->
      fmap B64.Recommendations (B64.analyze coef_ worn_rows)
      = Ok [rec_thermal; rec_eol; rec_discharge]) /\
  (forall coef_ : list Z -> float,
      (coef_ [80; 80]%Z <? -0.5) = false ->
      fmap B64.Recommendations (B64.analyze coef_ sound_rows) = Ok []).
Proof.
  split; [| split; [| split; [| split]]].
  - intros coef_ front latest r Hne Hr soh slope.
    rewrite (analyze_recommendations coef_ front latest r Hne Hr).
    rewrite recs_of_rules.
    change (B64.soh_of latest) with soh. fold slope.
    split; [reflexivity |].
    destruct (40 <? B64.temp_c latest), (soh <? 80), (slope <? -0.5);
      cbn [app In]; repeat split;
      try (intros _; tauto);
      try (intro H; discriminate H);
      intro H; repeat (destruct H as [H | H]; try discriminate H);
      try contradiction; reflexivity.
  - intros latest Ht. rewrite recs_of_rules, Ht. reflexivity.
  - intros latest Ht. rewrite recs_of_rules, Ht. reflexivity.
  - intros coef_ Hslope.
    unfold worn_rows.
    rewrite (analyze_rows coef_ [worn_row 50 35; worn_row 49 36; worn_row 49 38]
               (worn_row 48 41) ltac:(discriminate)).
    rewrite recs_of_rules.
    change (B64.slope_of coef_ _) with (coef_ [50; 49; 49; 48]%Z).
    rewrite Hslope. vm_compute. reflexivity.
  - intros coef_ Hslope.
    unfold sound_rows.
    rewrite (analyze_rows coef_ [sound_row] sound_row ltac:(discriminate)).
    rewrite recs_of_rules.
    change (B64.slope_of coef_ _) with (coef_ [80; 80]%Z).
    rewrite Hslope. vm_compute. reflexivity.
Qed.

(** A regression that returns [-0.5000000000000001] on a latest row at 40
    degrees whose SoH is [79.99999999999999]: the last two rules match. *)
Lemma recommendations_independent_witness :
  exists r,
    B64.analyze (fun _ => -0.5000000000000001) ([sound_row] ++ [rounded_row])
    = Ok r /\
    B64.Recommendations r = [rec_eol; rec_discharge].
Proof.
  assert (Hne : [sound_row] <> []) by discriminate.
  eexists. split; [vm_compute; reflexivity |].
  destruct (proj1 recommendations_independent
              (fun _ => -0.5000000000000001) [sound_row] rounded_row
              _ Hne eq_refl) as [Hrecs _].
  exact Hrecs.
Defined.

End Binary64.
